(** * Vehicle movement simulation: the playback engine of [app.js]

    A shallow embedding of the segment interpolation and animation timing
    code of [app.js], followed by the properties of it that the
    specification states.

    Reading of JavaScript values:
    - a [Number] that holds a coordinate, a clock reading, a duration or
      the speed multiplier is an exact rational ([Q]); rounding to
      binary64, [NaN] and the infinities are outside the model, and so is
      the result of a division by zero (the theorems that divide assume a
      positive divisor);
    - [index] and the frame handles are natural numbers, [route.length - 1]
      is computed in [Z] since it is [-1] for the empty route;
    - a [Date] is its time value, an integer number of milliseconds
      (invalid dates are outside the model); [null] is [None];
    - the DOM nodes are their [textContent], the Leaflet layers are the
      coordinates they hold, and the frame scheduler is the list of the
      handles that are still pending;
    - built-in functions whose result is not fixed by the program
      ([toFixed], [toISOString], [parseFloat], the [Math] functions) are
      fields of a [Host] record.

    Where rounding decides a statement, the arithmetic is also given as
    the program runs it, on IEEE 754 binary64 numbers (module
    [Binary64]).  *)

From Stdlib Require Import ZArith QArith Qround Lqa Lia.
From Stdlib Require Import Bool List Ascii String DecimalString.
From Stdlib Require Import SpecFloat.
Import ListNotations.

Local Open Scope Z_scope.

(** ** Host environment *)

Record Host : Type := mkHost {
  toFixed : Q -> nat -> string;      (* Number.prototype.toFixed *)
  toISOString : Q -> string;         (* new Date(v).toISOString() *)
  numberToString : Q -> string;      (* the string of a number in a template *)
  parseFloat : string -> Q;
  Math_PI : Q;
  Math_sin : Q -> Q;
  Math_cos : Q -> Q;
  Math_sqrt : Q -> Q;
  Math_atan2 : Q -> Q -> Q
}.

(** ** Data model *)

Definition LatLng : Type := (Q * Q)%type.

(** An element of [route], as [loadRoute] builds it. *)
Record Waypoint : Type := mkWaypoint {
  lat : Q;
  lng : Q;
  timestamp : option Z
}.

(** The module-level variables, the text of the DOM nodes, the map layers
    and the pending animation frames. *)
Record State : Type := mkState {
  route : list Waypoint;
  index : nat;
  playing : bool;
  speedMultiplier : Q;
  animRequest : option nat;
  segmentStartTime : option Q;
  segmentDuration : Q;
  segmentFrom : option Waypoint;
  segmentTo : option Waypoint;
  startSimTime : option Q;
  (* DOM *)
  playPauseBtn : string;
  speedValue : string;
  latEl : string;
  lngEl : string;
  timestampEl : string;
  elapsedEl : string;
  speedEl : string;
  progressEl : string;
  (* Leaflet layers *)
  fullPolyline : list LatLng;
  livePolyline : list LatLng;
  bikeMarker : LatLng;
  (* requestAnimationFrame *)
  rafPending : list nat;
  rafLast : nat
}.

(** How a function body ends: it returns, or an exception leaves it with
    the assignments made so far in place. *)
Inductive Completion : Type :=
| Normal (st : State)
| Throw (e : string) (st : State).

Definition state_of (c : Completion) : State :=
  match c with Normal st => st | Throw _ st => st end.

Definition bind (c : Completion) (k : State -> Completion) : Completion :=
  match c with
  | Normal st => k st
  | Throw e st => Throw e st
  end.

Notation "c >>= k" := (bind c k) (at level 50, left associativity).

Definition TypeError : string := "TypeError"%string.

(** ** Assignments *)

Definition set_route (v : list Waypoint) (s : State) : State :=
  mkState v (index s) (playing s) (speedMultiplier s) (animRequest s)
    (segmentStartTime s) (segmentDuration s) (segmentFrom s) (segmentTo s)
    (startSimTime s) (playPauseBtn s) (speedValue s) (latEl s) (lngEl s)
    (timestampEl s) (elapsedEl s) (speedEl s) (progressEl s)
    (fullPolyline s) (livePolyline s) (bikeMarker s) (rafPending s)
    (rafLast s).

Definition set_index (v : nat) (s : State) : State :=
  mkState (route s) v (playing s) (speedMultiplier s) (animRequest s)
    (segmentStartTime s) (segmentDuration s) (segmentFrom s) (segmentTo s)
    (startSimTime s) (playPauseBtn s) (speedValue s) (latEl s) (lngEl s)
    (timestampEl s) (elapsedEl s) (speedEl s) (progressEl s)
    (fullPolyline s) (livePolyline s) (bikeMarker s) (rafPending s)
    (rafLast s).

Definition set_playing (v : bool) (s : State) : State :=
  mkState (route s) (index s) v (speedMultiplier s) (animRequest s)
    (segmentStartTime s) (segmentDuration s) (segmentFrom s) (segmentTo s)
    (startSimTime s) (playPauseBtn s) (speedValue s) (latEl s) (lngEl s)
    (timestampEl s) (elapsedEl s) (speedEl s) (progressEl s)
    (fullPolyline s) (livePolyline s) (bikeMarker s) (rafPending s)
    (rafLast s).

Definition set_speedMultiplier (v : Q) (s : State) : State :=
  mkState (route s) (index s) (playing s) v (animRequest s)
    (segmentStartTime s) (segmentDuration s) (segmentFrom s) (segmentTo s)
    (startSimTime s) (playPauseBtn s) (speedValue s) (latEl s) (lngEl s)
    (timestampEl s) (elapsedEl s) (speedEl s) (progressEl s)
    (fullPolyline s) (livePolyline s) (bikeMarker s) (rafPending s)
    (rafLast s).

Definition set_animRequest (v : option nat) (s : State) : State :=
  mkState (route s) (index s) (playing s) (speedMultiplier s) v
    (segmentStartTime s) (segmentDuration s) (segmentFrom s) (segmentTo s)
    (startSimTime s) (playPauseBtn s) (speedValue s) (latEl s) (lngEl s)
    (timestampEl s) (elapsedEl s) (speedEl s) (progressEl s)
    (fullPolyline s) (livePolyline s) (bikeMarker s) (rafPending s)
    (rafLast s).

Definition set_segmentStartTime (v : option Q) (s : State) : State :=
  mkState (route s) (index s) (playing s) (speedMultiplier s)
    (animRequest s) v (segmentDuration s) (segmentFrom s) (segmentTo s)
    (startSimTime s) (playPauseBtn s) (speedValue s) (latEl s) (lngEl s)
    (timestampEl s) (elapsedEl s) (speedEl s) (progressEl s)
    (fullPolyline s) (livePolyline s) (bikeMarker s) (rafPending s)
    (rafLast s).

Definition set_segmentDuration (v : Q) (s : State) : State :=
  mkState (route s) (index s) (playing s) (speedMultiplier s)
    (animRequest s) (segmentStartTime s) v (segmentFrom s) (segmentTo s)
    (startSimTime s) (playPauseBtn s) (speedValue s) (latEl s) (lngEl s)
    (timestampEl s) (elapsedEl s) (speedEl s) (progressEl s)
    (fullPolyline s) (livePolyline s) (bikeMarker s) (rafPending s)
    (rafLast s).

Definition set_segmentFrom (v : option Waypoint) (s : State) : State :=
  mkState (route s) (index s) (playing s) (speedMultiplier s)
    (animRequest s) (segmentStartTime s) (segmentDuration s) v (segmentTo s)
    (startSimTime s) (playPauseBtn s) (speedValue s) (latEl s) (lngEl s)
    (timestampEl s) (elapsedEl s) (speedEl s) (progressEl s)
    (fullPolyline s) (livePolyline s) (bikeMarker s) (rafPending s)
    (rafLast s).

Definition set_segmentTo (v : option Waypoint) (s : State) : State :=
  mkState (route s) (index s) (playing s) (speedMultiplier s)
    (animRequest s) (segmentStartTime s) (segmentDuration s) (segmentFrom s)
    v (startSimTime s) (playPauseBtn s) (speedValue s) (latEl s) (lngEl s)
    (timestampEl s) (elapsedEl s) (speedEl s) (progressEl s)
    (fullPolyline s) (livePolyline s) (bikeMarker s) (rafPending s)
    (rafLast s).

Definition set_startSimTime (v : option Q) (s : State) : State :=
  mkState (route s) (index s) (playing s) (speedMultiplier s)
    (animRequest s) (segmentStartTime s) (segmentDuration s) (segmentFrom s)
    (segmentTo s) v (playPauseBtn s) (speedValue s) (latEl s) (lngEl s)
    (timestampEl s) (elapsedEl s) (speedEl s) (progressEl s)
    (fullPolyline s) (livePolyline s) (bikeMarker s) (rafPending s)
    (rafLast s).

Definition set_playPauseBtn (v : string) (s : State) : State :=
  mkState (route s) (index s) (playing s) (speedMultiplier s)
    (animRequest s) (segmentStartTime s) (segmentDuration s) (segmentFrom s)
    (segmentTo s) (startSimTime s) v (speedValue s) (latEl s) (lngEl s)
    (timestampEl s) (elapsedEl s) (speedEl s) (progressEl s)
    (fullPolyline s) (livePolyline s) (bikeMarker s) (rafPending s)
    (rafLast s).

Definition set_speedValue (v : string) (s : State) : State :=
  mkState (route s) (index s) (playing s) (speedMultiplier s)
    (animRequest s) (segmentStartTime s) (segmentDuration s) (segmentFrom s)
    (segmentTo s) (startSimTime s) (playPauseBtn s) v (latEl s) (lngEl s)
    (timestampEl s) (elapsedEl s) (speedEl s) (progressEl s)
    (fullPolyline s) (livePolyline s) (bikeMarker s) (rafPending s)
    (rafLast s).

Definition set_latEl (v : string) (s : State) : State :=
  mkState (route s) (index s) (playing s) (speedMultiplier s)
    (animRequest s) (segmentStartTime s) (segmentDuration s) (segmentFrom s)
    (segmentTo s) (startSimTime s) (playPauseBtn s) (speedValue s) v
    (lngEl s) (timestampEl s) (elapsedEl s) (speedEl s) (progressEl s)
    (fullPolyline s) (livePolyline s) (bikeMarker s) (rafPending s)
    (rafLast s).

Definition set_lngEl (v : string) (s : State) : State :=
  mkState (route s) (index s) (playing s) (speedMultiplier s)
    (animRequest s) (segmentStartTime s) (segmentDuration s) (segmentFrom s)
    (segmentTo s) (startSimTime s) (playPauseBtn s) (speedValue s) (latEl s)
    v (timestampEl s) (elapsedEl s) (speedEl s) (progressEl s)
    (fullPolyline s) (livePolyline s) (bikeMarker s) (rafPending s)
    (rafLast s).

Definition set_timestampEl (v : string) (s : State) : State :=
  mkState (route s) (index s) (playing s) (speedMultiplier s)
    (animRequest s) (segmentStartTime s) (segmentDuration s) (segmentFrom s)
    (segmentTo s) (startSimTime s) (playPauseBtn s) (speedValue s) (latEl s)
    (lngEl s) v (elapsedEl s) (speedEl s) (progressEl s) (fullPolyline s)
    (livePolyline s) (bikeMarker s) (rafPending s) (rafLast s).

Definition set_elapsedEl (v : string) (s : State) : State :=
  mkState (route s) (index s) (playing s) (speedMultiplier s)
    (animRequest s) (segmentStartTime s) (segmentDuration s) (segmentFrom s)
    (segmentTo s) (startSimTime s) (playPauseBtn s) (speedValue s) (latEl s)
    (lngEl s) (timestampEl s) v (speedEl s) (progressEl s) (fullPolyline s)
    (livePolyline s) (bikeMarker s) (rafPending s) (rafLast s).

Definition set_speedEl (v : string) (s : State) : State :=
  mkState (route s) (index s) (playing s) (speedMultiplier s)
    (animRequest s) (segmentStartTime s) (segmentDuration s) (segmentFrom s)
    (segmentTo s) (startSimTime s) (playPauseBtn s) (speedValue s) (latEl s)
    (lngEl s) (timestampEl s) (elapsedEl s) v (progressEl s)
    (fullPolyline s) (livePolyline s) (bikeMarker s) (rafPending s)
    (rafLast s).

Definition set_progressEl (v : string) (s : State) : State :=
  mkState (route s) (index s) (playing s) (speedMultiplier s)
    (animRequest s) (segmentStartTime s) (segmentDuration s) (segmentFrom s)
    (segmentTo s) (startSimTime s) (playPauseBtn s) (speedValue s) (latEl s)
    (lngEl s) (timestampEl s) (elapsedEl s) (speedEl s) v (fullPolyline s)
    (livePolyline s) (bikeMarker s) (rafPending s) (rafLast s).

Definition set_fullPolyline (v : list LatLng) (s : State) : State :=
  mkState (route s) (index s) (playing s) (speedMultiplier s)
    (animRequest s) (segmentStartTime s) (segmentDuration s) (segmentFrom s)
    (segmentTo s) (startSimTime s) (playPauseBtn s) (speedValue s) (latEl s)
    (lngEl s) (timestampEl s) (elapsedEl s) (speedEl s) (progressEl s) v
    (livePolyline s) (bikeMarker s) (rafPending s) (rafLast s).

Definition set_livePolyline (v : list LatLng) (s : State) : State :=
  mkState (route s) (index s) (playing s) (speedMultiplier s)
    (animRequest s) (segmentStartTime s) (segmentDuration s) (segmentFrom s)
    (segmentTo s) (startSimTime s) (playPauseBtn s) (speedValue s) (latEl s)
    (lngEl s) (timestampEl s) (elapsedEl s) (speedEl s) (progressEl s)
    (fullPolyline s) v (bikeMarker s) (rafPending s) (rafLast s).

Definition set_bikeMarker (v : LatLng) (s : State) : State :=
  mkState (route s) (index s) (playing s) (speedMultiplier s)
    (animRequest s) (segmentStartTime s) (segmentDuration s) (segmentFrom s)
    (segmentTo s) (startSimTime s) (playPauseBtn s) (speedValue s) (latEl s)
    (lngEl s) (timestampEl s) (elapsedEl s) (speedEl s) (progressEl s)
    (fullPolyline s) (livePolyline s) v (rafPending s) (rafLast s).

Definition set_rafPending (v : list nat) (s : State) : State :=
  mkState (route s) (index s) (playing s) (speedMultiplier s)
    (animRequest s) (segmentStartTime s) (segmentDuration s) (segmentFrom s)
    (segmentTo s) (startSimTime s) (playPauseBtn s) (speedValue s) (latEl s)
    (lngEl s) (timestampEl s) (elapsedEl s) (speedEl s) (progressEl s)
    (fullPolyline s) (livePolyline s) (bikeMarker s) v (rafLast s).

Definition set_rafLast (v : nat) (s : State) : State :=
  mkState (route s) (index s) (playing s) (speedMultiplier s)
    (animRequest s) (segmentStartTime s) (segmentDuration s) (segmentFrom s)
    (segmentTo s) (startSimTime s) (playPauseBtn s) (speedValue s) (latEl s)
    (lngEl s) (timestampEl s) (elapsedEl s) (speedEl s) (progressEl s)
    (fullPolyline s) (livePolyline s) (bikeMarker s) (rafPending s) v.

(** ** Conversions that JavaScript applies implicitly *)

(** [ToNumber] of a timestamp field: the time value of a [Date], [0] for
    [null]. *)
Definition time_value (t : option Z) : Z :=
  match t with Some v => v | None => 0 end.

(** [ToNumber] of a variable that holds a clock reading or [null]. *)
Definition number_of (o : option Q) : Q :=
  match o with Some v => v | None => 0%Q end.

(** [!x] for such a variable: [null] and [0] are falsy. *)
Definition falsy (o : option Q) : bool :=
  match o with Some v => Qeq_bool v 0 | None => true end.

(** [String(n)] for an integer. *)
Definition String_of_Z (n : Z) : string :=
  NilZero.string_of_int (Z.to_int n).

(** [s.padStart(2, '0')]. *)
Definition padStart2 (s : string) : string :=
  match String.length s with
  | O => "00"%string
  | S O => String "0"%char s
  | _ => s
  end.

(** [Math.min(x, y)] and [Math.floor(x)] on exact numbers. *)
Definition Math_min (x y : Q) : Q := if Qle_bool x y then x else y.
Definition Math_floor (x : Q) : Z := Qfloor x.

Definition em_dash : string := "—"%string.

(** ** Pure helpers of [app.js] *)

Definition formatTime (ms : Q) : string :=
  let s := Z.rem (Math_floor (ms / 1000)) 60 in
  let m := Z.rem (Math_floor (ms / 60000)) 60 in
  let h := Math_floor (ms / 3600000) in
  (padStart2 (String_of_Z h) ++ ":" ++ padStart2 (String_of_Z m) ++ ":"
     ++ padStart2 (String_of_Z s))%string.

Definition lerp (a b t : Q) : Q := (a + (b - a) * t)%Q.

Definition haversine (host : Host) (p1 p2 : LatLng) : Q :=
  let '(lat1, lon1) := p1 in
  let '(lat2, lon2) := p2 in
  let R := 6371000%Q in
  let toRad := fun v : Q => (v * Math_PI host / 180)%Q in
  let dLat := toRad (lat2 - lat1)%Q in
  let dLon := toRad (lon2 - lon1)%Q in
  let a :=
    (Math_sin host (dLat / 2) ^ 2 +
     Math_cos host (toRad lat1) * Math_cos host (toRad lat2)
       * Math_sin host (dLon / 2) ^ 2)%Q in
  let c :=
    (2 * Math_atan2 host (Math_sqrt host a) (Math_sqrt host (1 - a)))%Q in
  (R * c)%Q.

(** ** The interpolation in binary64 *)

(** A JavaScript [Number] as it is stored: an IEEE 754 binary64 value,
    with the operations rounding to nearest, ties to even. *)
Module Binary64.

Definition prec : Z := 53.
Definition emax : Z := 1024.

Definition add : spec_float -> spec_float -> spec_float := SFadd prec emax.
Definition sub : spec_float -> spec_float -> spec_float := SFsub prec emax.
Definition mul : spec_float -> spec_float -> spec_float := SFmul prec emax.
Definition div : spec_float -> spec_float -> spec_float := SFdiv prec emax.

(** The number that an integer literal denotes. *)
Definition of_Z (z : Z) : spec_float := binary_normalize prec emax z 0 false.

(** The number that the decimal literal [n / d] denotes, [d] a power of
    ten: the binary64 value nearest to the quotient. *)
Definition decimal (n d : Z) : spec_float := div (of_Z n) (of_Z d).

Definition zero : spec_float := S754_zero false.
Definition one : spec_float := of_Z 1.

(** Neither [NaN] nor an infinity. *)
Definition finite (x : spec_float) : bool :=
  match x with
  | S754_zero _ | S754_finite _ _ _ => true
  | S754_infinity _ | S754_nan => false
  end.

(** What the format can hold: the mantissa and exponent of a finite
    number are in range. Every result of an operation is. *)
Definition valid (x : spec_float) : bool := valid_binary prec emax x.

(** [lerp(a, b, t)], lines 61-63. *)
Definition lerp (a b t : spec_float) : spec_float :=
  add a (mul (sub b a) t).

(** The point that [animate] computes in lines 137-138, from the
    coordinates of the two endpoints. *)
Definition interpolate (from to : spec_float * spec_float) (t : spec_float)
  : spec_float * spec_float :=
  (lerp (fst from) (fst to) t, lerp (snd from) (snd to) t).

End Binary64.

(** ** The frame scheduler *)

(** [animRequest = requestAnimationFrame(animate)]: a fresh handle is
    queued and stored. *)
Definition requestAnimationFrame (st : State) : State :=
  let h := S (rafLast st) in
  set_animRequest (Some h)
    (set_rafPending (rafPending st ++ [h]) (set_rafLast h st)).

(** [cancelAnimationFrame(h)]: the handle leaves the queue; [null] and
    handles that are not queued are ignored. *)
Definition cancelAnimationFrame (h : option nat) (st : State) : State :=
  match h with
  | Some n => set_rafPending (remove Nat.eq_dec n (rafPending st)) st
  | None => st
  end.

(** ** The playback engine *)

Section Engine.

Variable host : Host.

(** The progress text, [`${i + 1} / ${route.length}`]. *)
Definition progress_text (i : nat) (st : State) : string :=
  (String_of_Z (Z.of_nat i + 1) ++ " / "
     ++ String_of_Z (Z.of_nat (List.length (route st))))%string.

Definition updateInfo (i : nat) (st : State) : Completion :=
  match nth_error (route st) i with
  | None => Throw TypeError st
  | Some p =>
      let st := set_latEl (toFixed host (lat p) 6) st in
      let st := set_lngEl (toFixed host (lng p) 6) st in
      let st :=
        set_timestampEl
          (match timestamp p with
           | Some d => toISOString host (inject_Z d)
           | None => em_dash
           end) st in
      let st := set_elapsedEl "00:00:00" st in
      let st := set_speedEl em_dash st in
      Normal (set_progressEl (progress_text i st) st)
  end.

Definition resetSimulation (st : State) : Completion :=
  let st := set_playing false st in
  let st := cancelAnimationFrame (animRequest st) st in
  let st := set_index 0 st in
  let st := set_livePolyline [] st in
  match nth_error (route st) 0 with
  | None => Throw TypeError st
  | Some p0 =>
      let st := set_bikeMarker (lat p0, lng p0) st in
      updateInfo 0 st >>= fun st =>
      Normal (set_playPauseBtn "Play" st)
  end.

(** [startSegment(i)]; [now] is what [performance.now()] returns in it. *)
Definition startSegment (now : Q) (i : nat) (st : State) : Completion :=
  if Z.of_nat i >=? Z.of_nat (List.length (route st)) - 1 then
    Normal (set_playPauseBtn "Play" (set_playing false st))
  else
    let st := set_segmentFrom (nth_error (route st) i) st in
    let st := set_segmentTo (nth_error (route st) (i + 1)) st in
    let st := set_segmentStartTime (Some now) st in
    match segmentFrom st with
    | None => Throw TypeError st
    | Some from =>
        match timestamp from with
        | None =>
            Normal (set_segmentDuration (2000 / speedMultiplier st)%Q st)
        | Some t1 =>
            match segmentTo st with
            | None => Throw TypeError st
            | Some to =>
                match timestamp to with
                | None =>
                    Normal
                      (set_segmentDuration (2000 / speedMultiplier st)%Q st)
                | Some t2 =>
                    let dt := t2 - t1 in
                    let dt := if dt <=? 0 then 2000 else dt in
                    Normal
                      (set_segmentDuration
                         (inject_Z dt / speedMultiplier st)%Q st)
                end
            end
        end
    end.

(** [if (!segmentStartTime) segmentStartTime = now;] *)
Definition anchored (now : Q) (st : State) : State :=
  if falsy (segmentStartTime st)
  then set_segmentStartTime (Some now) st else st.

(** The constants that [animate] computes from the open segment. *)
Definition tick_t (now : Q) (st : State) : Q :=
  let elapsed := (now - number_of (segmentStartTime st))%Q in
  Math_min 1 (elapsed / segmentDuration st).

Definition segMs (from to : Waypoint) : Z :=
  time_value (timestamp to) - time_value (timestamp from).

Definition segSpeed (from to : Waypoint) : Q :=
  let segDist := haversine host (lat from, lng from) (lat to, lng to) in
  if 0 <? segMs from to
  then (segDist / (inject_Z (segMs from to) / 1000) * (36 # 10))%Q
  else 0%Q.

(** [animate(now)]; [pnow] is what [performance.now()] returns if the tick
    opens the next segment. *)
Definition animate (now pnow : Q) (st : State) : Completion :=
  if negb (playing st) then Normal st
  else
    let st := anchored now st in
    let t := tick_t now st in
    match segmentFrom st, segmentTo st with
    | Some from, Some to =>
        let lat' := lerp (lat from) (lat to) t in
        let lng' := lerp (lng from) (lng to) t in
        let st := set_bikeMarker (lat', lng') st in
        let st := set_livePolyline (livePolyline st ++ [(lat', lng')]) st in
        let st := set_latEl (toFixed host lat' 6) st in
        let st := set_lngEl (toFixed host lng' 6) st in
        let st :=
          set_timestampEl
            (match timestamp from with
             | Some d =>
                 toISOString host
                   (inject_Z d + t * inject_Z (segMs from to))%Q
             | None => em_dash
             end) st in
        let st :=
          set_elapsedEl
            (formatTime (now - number_of (startSimTime st))%Q) st in
        let st :=
          set_speedEl (toFixed host (segSpeed from to) 2 ++ " km/h")%string
            st in
        let st := set_progressEl (progress_text (index st) st) st in
        if Qle_bool 1 t then
          let st := set_index (index st + 1) st in
          if Z.of_nat (index st) <? Z.of_nat (List.length (route st)) - 1 then
            startSegment pnow (index st) st >>= fun st =>
            Normal (requestAnimationFrame st)
          else
            Normal (set_playPauseBtn "Play" (set_playing false st))
        else
          Normal (requestAnimationFrame st)
    | _, _ => Throw TypeError st
    end.

(** ** Start-up *)

(** A record of the route file after [resp.json()]; [raw_timestamp] is the
    time value of [new Date(p.timestamp)], or [None] when [p.timestamp] is
    falsy. *)
Record RawPoint : Type := mkRawPoint {
  latitude : Q;
  longitude : Q;
  raw_timestamp : option Z
}.

Definition toDate (ts : option Z) : option Z :=
  match ts with Some v => Some v | None => None end.

(** The element of [route] that [loadRoute] builds from a record. *)
Definition waypoint_of_raw (p : RawPoint) : Waypoint :=
  {| lat := latitude p;
     lng := longitude p;
     timestamp :=
       match raw_timestamp p with
       | Some v => toDate (Some v)
       | None => None
       end |}.

(** The variables as the script declares them, after [initMap()]. *)
Definition initialState : State :=
  {| route := []; index := 0; playing := false; speedMultiplier := 1%Q;
     animRequest := None; segmentStartTime := None;
     segmentDuration := 2000%Q; segmentFrom := None; segmentTo := None;
     startSimTime := None;
     playPauseBtn := ""; speedValue := ""; latEl := ""; lngEl := "";
     timestampEl := ""; elapsedEl := ""; speedEl := ""; progressEl := "";
     fullPolyline := []; livePolyline := [];
     bikeMarker := (17385044 # 1000000, 78486671 # 1000000)%Q;
     rafPending := []; rafLast := 0 |}.

(** [loadRoute()]; [ok] is [resp.ok] and [json] the parsed route file. *)
Definition loadRoute (ok : bool) (json : list RawPoint) (st : State)
  : Completion :=
  if negb ok then Throw "Unable to load route file" st
  else
    let st := set_route (map waypoint_of_raw json) st in
    if (List.length (route st) =? 0)%nat then Throw "Route empty" st
    else
      let st :=
        set_fullPolyline (map (fun p => (lat p, lng p)) (route st)) st in
      let st := set_index 0 st in
      let st := set_livePolyline [] st in
      match nth_error (route st) 0 with
      | None => Throw TypeError st
      | Some p0 =>
          let st := set_bikeMarker (lat p0, lng p0) st in
          updateInfo 0 st
      end.

(** The start-up function once the route file has arrived: [loadRoute()]
    from its first [await] on, then the label of the speed slider.
    ([initMap()] has run before, see [initialState]; a failure is reported
    with [alert] and the page stays as it is.) *)
Definition start_up (ok : bool) (json : list RawPoint) (st : State)
  : Completion :=
  loadRoute ok json st >>= fun st =>
  Normal
    (set_speedValue (numberToString host (speedMultiplier st) ++ "×")%string
       st).

(** The click handler of [playPauseBtn]; [now0] and [now1] are the two
    successive readings of [performance.now()] on the play branch. *)
Definition playPauseBtn_click (now0 now1 : Q) (st : State) : Completion :=
  if (List.length (route st) =? 0)%nat then Normal st
  else if negb (playing st) then
    (if Z.of_nat (index st) >=? Z.of_nat (List.length (route st)) - 1
     then resetSimulation st else Normal st) >>= fun st =>
    let st := set_playing true st in
    let st := set_playPauseBtn "Pause" st in
    let st := set_startSimTime (Some now0) st in
    startSegment now1 (index st) st >>= fun st =>
    Normal (requestAnimationFrame st)
  else
    let st := set_playing false st in
    let st := set_playPauseBtn "Play" st in
    Normal (cancelAnimationFrame (animRequest st) st).

(** The input handler of [speedRange]; [value] is [e.target.value]. *)
Definition speedRange_input (value : string) (st : State) : Completion :=
  let st := set_speedMultiplier (parseFloat host value) st in
  Normal
    (set_speedValue (numberToString host (speedMultiplier st) ++ "×")%string
       st).

(** The click handler of [resetBtn]. *)
Definition resetBtn_click (st : State) : Completion := resetSimulation st.

(** The browser runs a queued frame callback: the handle leaves the queue
    and [animate] is called with the frame's timestamp. *)
Definition run_frame (h : nat) (now pnow : Q) (st : State) : Completion :=
  if existsb (Nat.eqb h) (rafPending st)
  then animate now pnow
         (set_rafPending (remove Nat.eq_dec h (rafPending st)) st)
  else Normal st.

(** ** Events and reachable states *)

(** What the browser delivers to the page. *)
Inductive Event : Type :=
| PlayPause (now0 now1 : Q)
| SetSpeed (value : string)
| Reset
| Frame (h : nat) (now pnow : Q).

Definition dispatch (ev : Event) (st : State) : Completion :=
  match ev with
  | PlayPause now0 now1 => playPauseBtn_click now0 now1 st
  | SetSpeed value => speedRange_input value st
  | Reset => resetBtn_click st
  | Frame h now pnow => run_frame h now pnow st
  end.

(** An exception in a handler is reported and the page goes on with the
    variables as the handler left them. *)
Definition after (ev : Event) (st : State) : State :=
  state_of (dispatch ev st).

Definition run (evs : list Event) (st : State) : State :=
  fold_left (fun s ev => after ev s) evs st.

(** The states of a session that loaded [json]: events may arrive while
    the route file is being fetched, then the route arrives, then more
    events do. *)
Inductive reachable (json : list RawPoint) : State -> Prop :=
| reach_load (early : list Event) (st : State) :
    start_up true json (run early initialState) = Normal st ->
    reachable json st
| reach_event (ev : Event) (st : State) :
    reachable json st -> reachable json (after ev st).

End Engine.

(** ** A concrete host and concrete sessions, for the examples *)

Module Demo.

Definition PI : Q := 3141592653589793 # 1000000000000000.

(** [toFixed] on an exact number: the nearest multiple of [10^-d], a tie
    going up, with the sign set apart first. *)
Definition pad_zeros (n : nat) (s : string) : string :=
  (string_of_list_ascii (repeat "0"%char (n - String.length s)) ++ s)%string.

Definition toFixed_exact (x : Q) (d : nat) : string :=
  let neg := negb (Qle_bool 0 x) in
  let ax := if neg then (- x)%Q else x in
  let n := Qfloor (ax * inject_Z (10 ^ Z.of_nat d) + (1 # 2))%Q in
  let m := pad_zeros (S d) (String_of_Z n) in
  let k := (String.length m - d)%nat in
  ((if neg then "-" else "")
     ++ substring 0 k m
     ++ (if (d =? 0)%nat then "" else "." ++ substring k d m))%string.

(** The [Math] functions are given at the arguments that the examples
    reach, with the values a browser returns there; elsewhere they are
    [0]. Dates and general numbers are not rendered. *)
Definition host : Host :=
  {| toFixed := toFixed_exact;
     toISOString := fun _ => "<date>"%string;
     numberToString := fun x => String_of_Z (Qfloor x);
     parseFloat := fun s => if String.eqb s "2" then 2%Q else 1%Q;
     Math_PI := PI;
     Math_sin := fun x => if Qeq_bool x (PI / 2) then 1%Q else 0%Q;
     Math_cos := fun x => if Qeq_bool x 0 then 1%Q else 0%Q;
     Math_sqrt := fun x => if Qeq_bool x 1 then 1%Q else 0%Q;
     Math_atan2 := fun y x =>
       if Qeq_bool y 1 && Qeq_bool x 0 then (PI / 2)%Q else 0%Q |}.

(** Two waypoints one second apart. *)
Definition json2 : list RawPoint :=
  [ mkRawPoint 0 0 (Some 0); mkRawPoint 1 1 (Some 1000) ].

(** A single waypoint. *)
Definition raw1 : RawPoint := mkRawPoint 5 7 (Some 0).
Definition json1 : list RawPoint := [ raw1 ].

(** Half the equator, without timestamps. *)
Definition west : Waypoint := mkWaypoint 0 0 None.
Definition east : Waypoint := mkWaypoint 0 180 None.

Definition start2 : Waypoint := mkWaypoint 0 0 (Some 0).
Definition end2 : Waypoint := mkWaypoint 1 1 (Some 1000).
Definition jsonEquator : list RawPoint :=
  [ mkRawPoint 0 0 None; mkRawPoint 0 180 None ].

(** Two endpoints as binary64 numbers: from (51, -0.0015) to
    (8.56, 0.0007). *)
Definition from64 : spec_float * spec_float :=
  (Binary64.of_Z 51, Binary64.decimal (-15) 10000).
Definition to64 : spec_float * spec_float :=
  (Binary64.decimal 856 100, Binary64.decimal 7 10000).

Definition loaded (json : list RawPoint) : State :=
  state_of (start_up host true json initialState).

(** Play is clicked when the clock reads 1000. *)
Definition playing2 : State := after host (PlayPause 1000 1000) (loaded json2).
Definition playingEquator : State :=
  after host (PlayPause 1000 1000) (loaded jsonEquator).

(** The frame at 2000 completes the only segment. *)
Definition finished2 : State := after host (Frame 1 2000 2000) playing2.

(** A frame at 1500, a pause at 1600, and play again at 3000. *)
Definition paused2 : State :=
  run host [Frame 1 1500 1500; PlayPause 1600 1600] playing2.
Definition resumed2 : State := after host (PlayPause 3000 3000) paused2.

End Demo.

(** ** Vocabulary of the statements *)

Definition position (w : Waypoint) : LatLng := (lat w, lng w).

(** Equality of positions as numbers. *)
Definition same_place (x y : LatLng) : Prop :=
  (fst x == fst y)%Q /\ (snd x == snd y)%Q.

(** The fields that only [loadRoute] and the speed handler write. *)
Definition settings (st : State) : list Waypoint * Q * list LatLng * string :=
  (route st, speedMultiplier st, fullPolyline st, speedValue st).

(** What a tick shows: the marker, the trail and the text fields. *)
Definition display (st : State)
  : LatLng * list LatLng * (string * string * string)
    * (string * string * string) :=
  (bikeMarker st, livePolyline st, (latEl st, lngEl st, timestampEl st),
   (elapsedEl st, speedEl st, progressEl st)).

(** The engine variables that [startSegment] does not write. *)
Definition session (st : State) : nat * option Q * option nat :=
  (index st, startSimTime st, animRequest st).

(** A relative margin above the rounding error of one binary64
    subtraction followed by one division (each at most [2^-53]). *)
Definition rounding_margin : Q := 1 # (2 ^ 50).

(** The frame queue and the counter that names its handles. *)
Definition queue (st : State) : list nat * nat := (rafPending st, rafLast st).

(** The shape of the engine between two events of a session with a route:
    the index is inside the route; while playing, the open segment is the
    one that starts at the index and exactly one frame, the requested one,
    is queued; otherwise at most the requested frame is queued, and only
    with the index on the last waypoint. *)
Definition well_formed (st : State) : Prop :=
  (index st < List.length (route st))%nat /\
  (playing st = true ->
   (index st + 1 < List.length (route st))%nat /\
   segmentFrom st = nth_error (route st) (index st) /\
   segmentTo st = nth_error (route st) (index st + 1) /\
   exists h, rafPending st = [h] /\ animRequest st = Some h) /\
  (playing st = false ->
   rafPending st = [] \/
   exists h,
     rafPending st = [h] /\ animRequest st = Some h /\
     (List.length (route st) <= index st + 1)%nat).

Ltac break_match :=
  match goal with
  | |- context [match ?x with _ => _ end] => destruct x eqn:?
  end.

Ltac frame_by_cases := repeat break_match; reflexivity.

(** Projections of assignments. *)
Ltac state_fields :=
  cbn [route index playing speedMultiplier animRequest segmentStartTime
       segmentDuration segmentFrom segmentTo startSimTime playPauseBtn
       speedValue latEl lngEl timestampEl elapsedEl speedEl progressEl
       fullPolyline livePolyline bikeMarker rafPending rafLast
       set_route set_index set_playing set_speedMultiplier set_animRequest
       set_segmentStartTime set_segmentDuration set_segmentFrom set_segmentTo
       set_startSimTime set_playPauseBtn set_speedValue set_latEl set_lngEl
       set_timestampEl set_elapsedEl set_speedEl set_progressEl
       set_fullPolyline set_livePolyline set_bikeMarker set_rafPending
       set_rafLast cancelAnimationFrame nth_error bind state_of].

(** The same, by value: a chain of assignments to a record becomes a
    record. *)
Ltac state_records :=
  cbv beta iota delta
    [route index playing speedMultiplier animRequest segmentStartTime
     segmentDuration segmentFrom segmentTo startSimTime playPauseBtn
     speedValue latEl lngEl timestampEl elapsedEl speedEl progressEl
     fullPolyline livePolyline bikeMarker rafPending rafLast
     set_route set_index set_playing set_speedMultiplier set_animRequest
     set_segmentStartTime set_segmentDuration set_segmentFrom set_segmentTo
     set_startSimTime set_playPauseBtn set_speedValue set_latEl set_lngEl
     set_timestampEl set_elapsedEl set_speedEl set_progressEl
     set_fullPolyline set_livePolyline set_bikeMarker set_rafPending
     set_rafLast cancelAnimationFrame bind state_of].

(** Projections of a state after the speed handler, and after the
    assignments of a tick. *)
Ltac speed_fields :=
  cbn [playing segmentStartTime segmentDuration segmentFrom segmentTo
       startSimTime index route livePolyline
       set_speedValue set_speedMultiplier set_segmentStartTime].

Ltac tick_fields :=
  cbn [index route playing set_index set_progressEl set_speedEl set_elapsedEl
       set_timestampEl set_lngEl set_latEl set_livePolyline set_bikeMarker
       set_speedValue set_speedMultiplier set_segmentStartTime].

(** * Properties *)

Section Properties.

Variable host : Host.

(** ** Opening a segment *)

Lemma startSegment_guard_false (i : nat) (st : State) (w1 w2 : Waypoint) :
  nth_error (route st) i = Some w1 ->
  nth_error (route st) (i + 1) = Some w2 ->
  (Z.of_nat i >=? Z.of_nat (List.length (route st)) - 1) = false.
Proof.
  intros _ H2.
  assert (Hlt : (i + 1 < List.length (route st))%nat).
  { apply nth_error_Some. rewrite H2. discriminate. }
  rewrite Z.geb_leb. apply Z.leb_gt. lia.
Qed.

Lemma Qdiv_pos (a b : Q) : (0 < a)%Q -> (0 < b)%Q -> (0 < a / b)%Q.
Proof.
  intros Ha Hb. unfold Qdiv.
  apply Qmult_lt_0_compat; [exact Ha | apply Qinv_lt_0_compat; exact Hb].
Qed.

Lemma inject_Z_pos (z : Z) : 0 < z -> (0 < inject_Z z)%Q.
Proof. intros H. change 0%Q with (inject_Z 0). rewrite <- Zlt_Qlt. exact H. Qed.

(** C1. Opening the segment between two adjacent waypoints at a positive
    speed multiplier [m] succeeds; the duration is [(t2 - t1) / m] when both
    timestamps are present and [t2 - t1] is positive, it is [2000 / m] when
    a timestamp is missing or the difference is not positive, and it is
    positive in every case. *)
Theorem startSegment_duration
    (now : Q) (i : nat) (st : State) (w1 w2 : Waypoint) :
  nth_error (route st) i = Some w1 ->
  nth_error (route st) (i + 1) = Some w2 ->
  (0 < speedMultiplier st)%Q ->
  exists st',
    startSegment now i st = Normal st' /\
    segmentFrom st' = Some w1 /\ segmentTo st' = Some w2 /\
    (forall t1 t2,
        timestamp w1 = Some t1 -> timestamp w2 = Some t2 -> 0 < t2 - t1 ->
        segmentDuration st' = (inject_Z (t2 - t1) / speedMultiplier st)%Q) /\
    (timestamp w1 = None \/ timestamp w2 = None \/
     (exists t1 t2,
         timestamp w1 = Some t1 /\ timestamp w2 = Some t2 /\ t2 - t1 <= 0) ->
     segmentDuration st' = (2000 / speedMultiplier st)%Q) /\
    (0 < segmentDuration st')%Q.
Proof.
  intros H1 H2 Hm.
  unfold startSegment.
  rewrite (startSegment_guard_false i st w1 w2 H1 H2).
  cbn [segmentFrom segmentTo set_segmentFrom set_segmentTo set_segmentStartTime
       route speedMultiplier].
  rewrite H1, H2.
  destruct (timestamp w1) as [t1|] eqn:E1.
  - destruct (timestamp w2) as [t2|] eqn:E2.
    + eexists; split; [reflexivity|]. cbn.
      destruct (t2 - t1 <=? 0) eqn:Ed.
      * apply Z.leb_le in Ed.
        repeat split; try reflexivity.
        -- intros a b Ha Hb Hpos. inversion Ha; inversion Hb; subst. lia.
        -- apply Qdiv_pos; [reflexivity | exact Hm].
      * apply Z.leb_gt in Ed.
        repeat split; try reflexivity.
        -- intros a b Ha Hb _. inversion Ha; inversion Hb; subst. reflexivity.
        -- intros [Hn | [Hn | (a & b & Ha & Hb & Hle)]]; try discriminate.
           inversion Ha; inversion Hb; subst. lia.
        -- apply Qdiv_pos; [apply inject_Z_pos; exact Ed | exact Hm].
    + eexists; split; [reflexivity|]. cbn.
      repeat split; try reflexivity.
      * intros a b _ Hb. discriminate.
      * apply Qdiv_pos; [reflexivity | exact Hm].
  - eexists; split; [reflexivity|]. cbn.
    repeat split; try reflexivity.
    + intros a b Ha. discriminate.
    + apply Qdiv_pos; [reflexivity | exact Hm].
Qed.

(** ** What each function leaves alone *)

Lemma bind_frame {A : Type} (f : State -> A) (c : Completion)
    (k : State -> Completion) :
  (forall s, f (state_of (k s)) = f s) ->
  f (state_of (c >>= k)) = f (state_of c).
Proof. intros Hk. destruct c; simpl; [apply Hk | reflexivity]. Qed.

Lemma startSegment_settings (now : Q) (i : nat) (st : State) :
  settings (state_of (startSegment now i st)) = settings st.
Proof. unfold startSegment. frame_by_cases. Qed.

Lemma updateInfo_settings (i : nat) (st : State) :
  settings (state_of (updateInfo host i st)) = settings st.
Proof. unfold updateInfo. frame_by_cases. Qed.

Lemma cancelAnimationFrame_settings (h : option nat) (st : State) :
  settings (cancelAnimationFrame h st) = settings st.
Proof. destruct h; reflexivity. Qed.

Lemma resetSimulation_settings (st : State) :
  settings (state_of (resetSimulation host st)) = settings st.
Proof.
  unfold resetSimulation.
  destruct (animRequest (set_playing false st)); cbn [cancelAnimationFrame];
    break_match; try reflexivity;
    (rewrite bind_frame; [rewrite updateInfo_settings | intros s]; reflexivity).
Qed.

Lemma anchored_settings (now : Q) (st : State) :
  settings (anchored now st) = settings st.
Proof. unfold anchored. frame_by_cases. Qed.

Lemma animate_settings (now pnow : Q) (st : State) :
  settings (state_of (animate host now pnow st)) = settings st.
Proof.
  unfold animate.
  destruct (negb (playing st)); [reflexivity|].
  rewrite <- (anchored_settings now st).
  generalize (anchored now st) as s. intros s.
  destruct (segmentFrom s), (segmentTo s); try reflexivity.
  break_match; [break_match|]; try reflexivity.
  rewrite bind_frame; [rewrite startSegment_settings | intros s']; reflexivity.
Qed.

Lemma playPauseBtn_click_settings (now0 now1 : Q) (st : State) :
  settings (state_of (playPauseBtn_click host now0 now1 st)) = settings st.
Proof.
  unfold playPauseBtn_click.
  destruct (List.length (route st) =? 0)%nat; [reflexivity|].
  destruct (negb (playing st)).
  - rewrite bind_frame.
    + destruct (Z.of_nat (index st) >=? _);
        [apply resetSimulation_settings | reflexivity].
    + intros s. rewrite bind_frame; [rewrite startSegment_settings | intros s'];
        reflexivity.
  - cbn [set_playing set_playPauseBtn animRequest state_of].
    rewrite cancelAnimationFrame_settings. reflexivity.
Qed.

Lemma run_frame_settings (h : nat) (now pnow : Q) (st : State) :
  settings (state_of (run_frame host h now pnow st)) = settings st.
Proof.
  unfold run_frame. break_match; [|reflexivity].
  rewrite animate_settings. reflexivity.
Qed.

Lemma startSegment_display (now : Q) (i : nat) (st : State) :
  display (state_of (startSegment now i st)) = display st.
Proof. unfold startSegment. frame_by_cases. Qed.

Lemma startSegment_session (now : Q) (i : nat) (st : State) :
  session (state_of (startSegment now i st)) = session st.
Proof. unfold startSegment. frame_by_cases. Qed.

Lemma startSegment_normal (now : Q) (i : nat) (st : State) :
  exists st', startSegment now i st = Normal st'.
Proof.
  unfold startSegment.
  destruct (Z.of_nat i >=? Z.of_nat (List.length (route st)) - 1) eqn:G;
    [eexists; reflexivity|].
  rewrite Z.geb_leb in G. apply Z.leb_gt in G.
  cbn [segmentFrom segmentTo set_segmentFrom set_segmentTo
       set_segmentStartTime route speedMultiplier].
  destruct (nth_error (route st) i) as [w1|] eqn:E1.
  2:{ apply nth_error_None in E1. lia. }
  destruct (nth_error (route st) (i + 1)) as [w2|] eqn:E2.
  2:{ apply nth_error_None in E2. lia. }
  destruct (timestamp w1), (timestamp w2); eexists; reflexivity.
Qed.

Lemma startSegment_queue (now : Q) (i : nat) (st : State) :
  queue (state_of (startSegment now i st)) = queue st.
Proof. unfold startSegment. frame_by_cases. Qed.

Lemma startSegment_cases (now : Q) (i : nat) (st : State) :
  ((List.length (route st) <= i + 1)%nat /\
   startSegment now i st =
     Normal (set_playPauseBtn "Play" (set_playing false st)))
  \/
  ((i + 1 < List.length (route st))%nat /\
   exists st',
     startSegment now i st = Normal st' /\
     playing st' = playing st /\
     segmentFrom st' = nth_error (route st) i /\
     segmentTo st' = nth_error (route st) (i + 1) /\
     segmentStartTime st' = Some now).
Proof.
  unfold startSegment.
  destruct (Z.of_nat i >=? Z.of_nat (List.length (route st)) - 1) eqn:G;
    rewrite Z.geb_leb in G.
  - left. apply Z.leb_le in G. split; [lia | reflexivity].
  - right. apply Z.leb_gt in G. split; [lia|].
    cbn [segmentFrom segmentTo set_segmentFrom set_segmentTo
         set_segmentStartTime route speedMultiplier].
    destruct (nth_error (route st) i) as [w1|] eqn:E1.
    2:{ apply nth_error_None in E1. lia. }
    destruct (nth_error (route st) (i + 1)) as [w2|] eqn:E2.
    2:{ apply nth_error_None in E2. lia. }
    destruct (timestamp w1), (timestamp w2);
      (eexists; split; [reflexivity|]); cbn; rewrite ?E1, ?E2; repeat split.
Qed.

(** ** One tick *)

Lemma anchored_segment (now : Q) (st : State) :
  segmentFrom (anchored now st) = segmentFrom st /\
  segmentTo (anchored now st) = segmentTo st /\
  segmentDuration (anchored now st) = segmentDuration st /\
  display (anchored now st) = display st /\
  session (anchored now st) = session st.
Proof.
  unfold anchored. destruct (falsy (segmentStartTime st)); repeat split.
Qed.

(** What a tick of a playing engine with an open segment emits. *)
Lemma animate_emits (now pnow : Q) (st : State) (from to : Waypoint) :
  playing st = true ->
  segmentFrom st = Some from ->
  segmentTo st = Some to ->
  let t := tick_t now (anchored now st) in
  let p := (lerp (lat from) (lat to) t, lerp (lng from) (lng to) t) in
  exists st',
    animate host now pnow st = Normal st' /\
    bikeMarker st' = p /\
    livePolyline st' = livePolyline st ++ [p] /\
    elapsedEl st' = formatTime (now - number_of (startSimTime st))%Q /\
    speedEl st' = (toFixed host (segSpeed host from to) 2 ++ " km/h")%string /\
    progressEl st' = progress_text (index st) st.
Proof.
  intros Hp Hf Ht t p.
  destruct (anchored_segment now st) as (Af & At & _ & Ad & As).
  unfold animate. rewrite Hp. cbn [negb].
  rewrite Af, At, Hf, Ht. fold t. fold p.
  assert (Hi : index (anchored now st) = index st)
    by (injection As; auto).
  assert (Hs : startSimTime (anchored now st) = startSimTime st)
    by (injection As; auto).
  assert (Hl : livePolyline (anchored now st) = livePolyline st)
    by (injection Ad; auto).
  assert (Hr : route (anchored now st) = route st)
    by (pose proof (anchored_settings now st) as E; injection E; auto).
  destruct (Qle_bool 1 t).
  - break_match.
    + match goal with
      | |- context [startSegment ?n ?i ?s] =>
          destruct (startSegment_normal n i s) as (s' & Es);
          pose proof (startSegment_display n i s) as Ds;
          rewrite Es in *
      end.
      cbn [bind]. eexists; split; [reflexivity|].
      cbn [state_of] in Ds. unfold display in Ds. cbn in Ds.
      injection Ds as D1 D2 D3 D4 D5 D6 D7 D8.
      cbn. rewrite D1, D2, D6, D7, D8, Hi, Hs, Hl.
      unfold progress_text. cbn. rewrite Hr. repeat split; reflexivity.
    + eexists; split; [reflexivity|]. cbn. rewrite Hi, Hs, Hl.
      unfold progress_text. cbn. rewrite Hr. repeat split; reflexivity.
  - eexists; split; [reflexivity|]. cbn. rewrite Hi, Hs, Hl.
    unfold progress_text. cbn. rewrite Hr. repeat split; reflexivity.
Qed.

(** ** Interpolation *)

(** The value of [lerp] in exact arithmetic is the convex combination of
    its first two arguments. The program computes it in binary64, where
    this holds up to rounding only. *)
Lemma lerp_convex (a b t : Q) : (lerp a b t == (1 - t) * a + t * b)%Q.
Proof. unfold lerp. ring. Qed.

Lemma lerp_start (a b t : Q) : (t == 0)%Q -> (lerp a b t == a)%Q.
Proof. intros H. unfold lerp. rewrite H. ring. Qed.

Lemma lerp_at_one (a b t : Q) : (t == 1)%Q -> (lerp a b t == a + (b - a))%Q.
Proof. intros H. unfold lerp. rewrite H. ring. Qed.

Lemma SFeqb_refl (x : spec_float) :
  Binary64.finite x = true -> SFeqb x x = true.
Proof.
  destruct x as [s | s | | s m e]; try discriminate; intros _;
    [reflexivity|].
  unfold SFeqb, SFcompare.
  destruct s; rewrite Z.compare_refl, Pos.compare_cont_refl; reflexivity.
Qed.

(** In binary64 too the interpolation at fraction 0 is the start value,
    as [===] compares numbers, when the start and the difference of the two
    values are finite. *)
Lemma lerp_start_binary64 (a b : spec_float) (s : bool) :
  Binary64.finite a = true ->
  Binary64.finite (Binary64.sub b a) = true ->
  SFeqb (Binary64.lerp a b (S754_zero s)) a = true.
Proof.
  intros Ha Hd. unfold Binary64.lerp, Binary64.mul, Binary64.add.
  destruct (Binary64.sub b a) as [sd | sd | | sd md ed]; try discriminate;
    cbn [SFmul];
    (destruct a as [sa | sa | | sa ma ea]; try discriminate; cbn [SFadd];
     [destruct sa, (xorb sd s); reflexivity
     | apply SFeqb_refl; reflexivity]).
Qed.

(** In binary64 a product by 1 is exact. *)
Lemma iter_shr_exact (m : positive) :
  iter_pos shr_1 52
    (Build_shr_record (Zpos (Pos.mul 4503599627370496 m)) false false)
  = Build_shr_record (Zpos m) false false.
Proof. reflexivity. Qed.

Lemma digits_shifted (m : positive) :
  Zpos (digits2_pos (Pos.mul 4503599627370496 m))
  = Zpos (digits2_pos m) + 52.
Proof. cbn [Pos.mul digits2_pos]. lia. Qed.

Lemma mul_one_binary64 (x : spec_float) :
  Binary64.valid x = true -> Binary64.mul x Binary64.one = x.
Proof.
  change Binary64.one with (S754_finite false 4503599627370496 (-52)).
  destruct x as [s | s | | s m e]; intros H; unfold Binary64.mul;
    cbn [SFmul]; rewrite ?xorb_false_r; try reflexivity.
  unfold Binary64.valid, valid_binary, bounded, canonical_mantissa in H.
  apply andb_prop in H. destruct H as (Hc & Hb).
  apply Z.eqb_eq in Hc.
  rewrite (Pos.mul_comm m).
  unfold binary_round_aux, shr_fexp, Zdigits2.
  rewrite digits_shifted.
  replace (Z.pos (digits2_pos m) + 52 + (e + -52))
    with (Z.pos (digits2_pos m) + e) by lia.
  rewrite Hc.
  replace (e - (e + -52)) with 52 by lia.
  unfold shr at 1. cbn [shr_record_of_loc]. rewrite iter_shr_exact.
  cbn [shr_m loc_of_shr_record round_nearest_even].
  replace (e + -52 + 52) with e by lia.
  rewrite Hc, Z.sub_diag. cbn [shr shr_record_of_loc shr_m].
  rewrite Hb. reflexivity.
Qed.

Lemma lerp_at_one_binary64 (a b : spec_float) :
  Binary64.valid (Binary64.sub b a) = true ->
  Binary64.lerp a b Binary64.one = Binary64.add a (Binary64.sub b a).
Proof.
  intros H. unfold Binary64.lerp. rewrite (mul_one_binary64 _ H). reflexivity.
Qed.

(** C2, as the code has it. A tick of a playing engine puts the marker, and
    the new end of the trail, at [(lerp(lat1, lat2, t), lerp(lng1, lng2, t))]
    for the fraction [t] of that tick, where [lerp(a, b, t)] is
    [a + (b - a) * t]. At [t = 0] this is the start waypoint and at
    [t = 1] it is [a + (b - a)] in each coordinate; both hold of the
    binary64 computation as well, where the rounding of [b - a] and of the
    sum can leave the latter beside the end waypoint. *)
Theorem animate_position
    (now pnow : Q) (st : State) (from to : Waypoint) :
  playing st = true ->
  segmentFrom st = Some from ->
  segmentTo st = Some to ->
  let t := tick_t now (anchored now st) in
  (exists st',
      animate host now pnow st = Normal st' /\
      bikeMarker st' =
        (lerp (lat from) (lat to) t, lerp (lng from) (lng to) t) /\
      livePolyline st' = livePolyline st ++ [bikeMarker st'] /\
      ((t == 0)%Q -> same_place (bikeMarker st') (position from)) /\
      ((t == 1)%Q ->
       same_place (bikeMarker st')
         (lat from + (lat to - lat from), lng from + (lng to - lng from))%Q))
  /\
  (forall (p q : spec_float * spec_float) (s : bool),
      Binary64.finite (fst p) = true ->
      Binary64.finite (snd p) = true ->
      Binary64.finite (Binary64.sub (fst q) (fst p)) = true ->
      Binary64.finite (Binary64.sub (snd q) (snd p)) = true ->
      SFeqb (fst (Binary64.interpolate p q (S754_zero s))) (fst p) = true /\
      SFeqb (snd (Binary64.interpolate p q (S754_zero s))) (snd p) = true)
  /\
  (forall p q : spec_float * spec_float,
      Binary64.valid (Binary64.sub (fst q) (fst p)) = true ->
      Binary64.valid (Binary64.sub (snd q) (snd p)) = true ->
      Binary64.interpolate p q Binary64.one =
      (Binary64.add (fst p) (Binary64.sub (fst q) (fst p)),
       Binary64.add (snd p) (Binary64.sub (snd q) (snd p)))).
Proof.
  intros Hp Hf Ht t. split; [|split].
  - destruct (animate_emits now pnow st from to Hp Hf Ht)
      as (st' & Ea & Em & El & _).
    fold t in Em, El.
    exists st'. rewrite El, Em.
    repeat split; try assumption; try reflexivity; cbn [fst snd position].
    + apply lerp_start; assumption.
    + apply lerp_start; assumption.
    + apply lerp_at_one; assumption.
    + apply lerp_at_one; assumption.
  - intros p q s H1 H2 H3 H4. unfold Binary64.interpolate. cbn [fst snd].
    split; apply lerp_start_binary64; assumption.
  - intros p q H1 H2. unfold Binary64.interpolate.
    rewrite (lerp_at_one_binary64 _ _ H1), (lerp_at_one_binary64 _ _ H2).
    reflexivity.
Qed.

(** ** The interpolation fraction *)

Lemma Math_min_le_l (x y : Q) : (Math_min x y <= x)%Q.
Proof.
  unfold Math_min. destruct (Qle_bool x y) eqn:E.
  - apply Qle_refl.
  - apply Qlt_le_weak, Qnot_le_lt. intros H.
    apply Qle_bool_iff in H. congruence.
Qed.

Lemma Math_min_ge (x y z : Q) :
  (z <= x)%Q -> (z <= y)%Q -> (z <= Math_min x y)%Q.
Proof. intros Hx Hy. unfold Math_min. destruct (Qle_bool x y); assumption. Qed.

Lemma Qdiv_nonneg (a b : Q) : (0 <= a)%Q -> (0 < b)%Q -> (0 <= a / b)%Q.
Proof.
  intros Ha Hb. unfold Qdiv.
  apply Qmult_le_0_compat; [exact Ha|].
  apply Qlt_le_weak, Qinv_lt_0_compat; exact Hb.
Qed.

(** C5, as the code has it. A tick of a playing engine interpolates at
    [t = Math.min(1, (now - segmentStartTime) / segmentDuration)]: there is
    no lower clamp. [t] is at most 1 for every [now], and it is at least 0
    when [now] is not earlier than the segment's start and the duration is
    positive. *)
Theorem tick_fraction_bounds
    (now pnow : Q) (st : State) (from to : Waypoint) :
  playing st = true ->
  segmentFrom st = Some from ->
  segmentTo st = Some to ->
  let start := number_of (segmentStartTime (anchored now st)) in
  let t := Math_min 1 ((now - start) / segmentDuration st) in
  (exists st',
      animate host now pnow st = Normal st' /\
      bikeMarker st' =
        (lerp (lat from) (lat to) t, lerp (lng from) (lng to) t)) /\
  (t <= 1)%Q /\
  ((start <= now)%Q -> (0 < segmentDuration st)%Q -> (0 <= t)%Q).
Proof.
  intros Hp Hf Ht start t.
  destruct (animate_emits now pnow st from to Hp Hf Ht)
    as (st' & Ea & Em & _).
  destruct (anchored_segment now st) as (_ & _ & Ed & _).
  unfold tick_t in Em. rewrite Ed in Em. fold start in Em. fold t in Em.
  split; [exists st'; split; assumption|].
  split; [apply Math_min_le_l|].
  intros Hs Hd. apply Math_min_ge; [discriminate|].
  apply Qdiv_nonneg; [|exact Hd].
  setoid_replace 0%Q with (start - start)%Q by ring.
  apply Qplus_le_l. exact Hs.
Qed.

(** ** The speed of a segment *)

(** C6, as the code has it. Every tick of an open segment shows
    [segSpeed.toFixed(2) km/h], where [segSpeed] depends on the two
    endpoints only: it is the great-circle distance divided by the
    timestamp difference in seconds, times 3.6, when that difference (a
    missing timestamp counting as 0) is positive, and 0 otherwise; the
    fallback duration plays no part in it. It is not negative when the
    distance is not. *)
Theorem animate_speed
    (now pnow : Q) (st : State) (from to : Waypoint) :
  playing st = true ->
  segmentFrom st = Some from ->
  segmentTo st = Some to ->
  let segDist := haversine host (position from) (position to) in
  (exists st',
      animate host now pnow st = Normal st' /\
      speedEl st' =
        (toFixed host (segSpeed host from to) 2 ++ " km/h")%string) /\
  (forall now2 pnow2 st2,
      playing st2 = true ->
      segmentFrom st2 = Some from ->
      segmentTo st2 = Some to ->
      speedEl (state_of (animate host now2 pnow2 st2)) =
      speedEl (state_of (animate host now pnow st))) /\
  (0 < segMs from to ->
   segSpeed host from to =
     (segDist / (inject_Z (segMs from to) / 1000) * (36 # 10))%Q) /\
  (segMs from to <= 0 -> segSpeed host from to = 0%Q) /\
  ((0 <= segDist)%Q -> (0 <= segSpeed host from to)%Q).
Proof.
  intros Hp Hf Ht segDist.
  destruct (animate_emits now pnow st from to Hp Hf Ht)
    as (st' & Ea & _ & _ & _ & Es & _).
  split; [exists st'; split; assumption|].
  split.
  { intros now2 pnow2 st2 Hp2 Hf2 Ht2.
    destruct (animate_emits now2 pnow2 st2 from to Hp2 Hf2 Ht2)
      as (st2' & Ea2 & _ & _ & _ & Es2 & _).
    rewrite Ea, Ea2. cbn [state_of]. congruence. }
  unfold segSpeed. fold (position from). fold (position to). fold segDist.
  split; [|split].
  - intros Hpos. apply Z.ltb_lt in Hpos. rewrite Hpos. reflexivity.
  - intros Hle. apply Z.ltb_ge in Hle. rewrite Hle. reflexivity.
  - intros Hd. destruct (0 <? segMs from to) eqn:E; [|apply Qle_refl].
    apply Z.ltb_lt in E.
    apply Qmult_le_0_compat; [|discriminate].
    apply Qdiv_nonneg; [exact Hd|].
    apply Qdiv_pos; [apply inject_Z_pos; exact E | reflexivity].
Qed.

(** ** Reset *)

Lemma resetSimulation_loaded
    (st : State) (p0 : Waypoint) (rest : list Waypoint) :
  route st = p0 :: rest ->
  exists st',
    resetSimulation host st = Normal st' /\
    index st' = 0%nat /\
    livePolyline st' = [] /\
    bikeMarker st' = position p0 /\
    elapsedEl st' = "00:00:00"%string /\
    speedEl st' = em_dash /\
    progressEl st' = progress_text 0 st /\
    playing st' = false /\
    rafPending st' = rafPending (cancelAnimationFrame (animRequest st) st) /\
    (route st' = route st /\ speedMultiplier st' = speedMultiplier st) /\
    (segmentFrom st' = segmentFrom st /\ segmentTo st' = segmentTo st /\
     startSimTime st' = startSimTime st).
Proof.
  intros Hr. unfold resetSimulation.
  assert (E : forall h s, route (cancelAnimationFrame h s) = route s)
    by (intros [n|] s; reflexivity).
  cbn [route set_livePolyline set_index]. rewrite E.
  cbn [route set_playing]. rewrite Hr. cbn [nth_error].
  unfold updateInfo.
  cbn [route set_livePolyline set_index set_bikeMarker]. rewrite E.
  cbn [route set_playing]. rewrite Hr. cbn [nth_error bind].
  eexists; split; [reflexivity|].
  unfold progress_text.
  cbn. rewrite ?E. cbn. rewrite ?Hr.
  destruct (animRequest st) as [h|]; repeat split; reflexivity.
Qed.

(** C7. With a route loaded, [resetSimulation] returns normally with the
    index at 0, the live trail empty, the marker on waypoint 0, the elapsed
    field at 00:00:00 and the speed field at the placeholder; the engine is
    not playing, the frame it had requested is no longer queued, and a
    frame callback that still runs changes nothing. *)
Theorem resetSimulation_restores
    (st : State) (p0 : Waypoint) (rest : list Waypoint) :
  route st = p0 :: rest ->
  exists st',
    resetSimulation host st = Normal st' /\
    index st' = 0%nat /\
    livePolyline st' = [] /\
    bikeMarker st' = (lat p0, lng p0) /\
    elapsedEl st' = "00:00:00"%string /\
    speedEl st' = em_dash /\
    playing st' = false /\
    (forall h, animRequest st = Some h -> ~ In h (rafPending st')) /\
    (forall now pnow, animate host now pnow st' = Normal st').
Proof.
  intros Hr.
  destruct (resetSimulation_loaded st p0 rest Hr)
    as (st' & E & Hi & Hl & Hm & He & Hs & _ & Hp & Hq & _).
  exists st'. repeat split; try assumption.
  - intros h Hh. rewrite Hq, Hh. cbn. apply remove_In.
  - intros now pnow. unfold animate. rewrite Hp. reflexivity.
Qed.

(** ** Commands without a route *)

(** C8, as the code has it. While the route is empty a click on the
    play/pause button returns at once and changes nothing; a change of the
    speed slider does not fail either, and it stores the new multiplier and
    its label and nothing else. *)
Theorem commands_without_route (st : State) :
  route st = [] ->
  (forall now0 now1, playPauseBtn_click host now0 now1 st = Normal st) /\
  (forall value,
      speedRange_input host value st =
      Normal
        (set_speedValue (numberToString host (parseFloat host value) ++ "×")
           (set_speedMultiplier (parseFloat host value) st))).
Proof.
  intros Hr. split.
  - intros now0 now1. unfold playPauseBtn_click. rewrite Hr. reflexivity.
  - intros value. reflexivity.
Qed.

(** ** Play *)

Lemma requestAnimationFrame_keeps (st : State) :
  playing (requestAnimationFrame st) = playing st /\
  startSimTime (requestAnimationFrame st) = startSimTime st /\
  index (requestAnimationFrame st) = index st /\
  segmentFrom (requestAnimationFrame st) = segmentFrom st /\
  segmentTo (requestAnimationFrame st) = segmentTo st /\
  display (requestAnimationFrame st) = display st.
Proof. repeat split. Qed.

(** C4, as the code has it. Every click that starts playback, a resume
    after a pause included, stores the current clock reading as the session
    start, and the tick that follows shows the elapsed time measured from
    that reading. *)
Theorem play_anchors_session_start (now0 now1 : Q) (st : State) :
  route st <> [] ->
  playing st = false ->
  exists st',
    playPauseBtn_click host now0 now1 st = Normal st' /\
    startSimTime st' = Some now0 /\
    (forall now pnow,
        playing st' = true ->
        exists st'',
          animate host now pnow st' = Normal st'' /\
          elapsedEl st'' = formatTime (now - now0)%Q).
Proof.
  intros Hr Hp. unfold playPauseBtn_click.
  destruct (route st) as [|p0 rest] eqn:Er; [congruence|].
  cbn [List.length Nat.eqb]. rewrite Hp. cbn [negb].
  assert (Hstart : forall s, exists st',
    (let s1 := set_playing true s in
     let s2 := set_playPauseBtn "Pause" s1 in
     let s3 := set_startSimTime (Some now0) s2 in
     startSegment now1 (index s3) s3 >>= fun s4 =>
     Normal (requestAnimationFrame s4)) = Normal st' /\
    startSimTime st' = Some now0 /\
    (playing st' = true ->
     exists from to, segmentFrom st' = Some from /\ segmentTo st' = Some to)).
  { intros s. cbn zeta.
    match goal with
    | |- context [startSegment ?n ?i ?x] =>
        pose proof (startSegment_session n i x) as Ss;
        destruct (startSegment_cases n i x)
          as [(Hle & Es) | (Hlt & s' & Es & Hpl & Hsf & Hst & _)];
        rewrite Es in *
    end.
    - cbn [bind]. eexists; split; [reflexivity|].
      split; [reflexivity | cbn; discriminate].
    - cbn [bind]. eexists; split; [reflexivity|].
      cbn [state_of] in Ss. injection Ss as _ Hs _.
      destruct (requestAnimationFrame_keeps s') as (_ & Hk & _ & Kf & Kt & _).
      rewrite Hk, Hs, Kf, Kt, Hsf, Hst. split; [reflexivity|]. intros _.
      cbn in Hlt |- *.
      destruct (nth_error (route s) (index s)) as [from|] eqn:E1.
      2:{ apply nth_error_None in E1. lia. }
      destruct (nth_error (route s) (index s + 1)) as [to|] eqn:E2.
      2:{ apply nth_error_None in E2. lia. }
      eauto. }
  assert (Hfin : forall s, exists st',
    (let s1 := set_playing true s in
     let s2 := set_playPauseBtn "Pause" s1 in
     let s3 := set_startSimTime (Some now0) s2 in
     startSegment now1 (index s3) s3 >>= fun s4 =>
     Normal (requestAnimationFrame s4)) = Normal st' /\
    startSimTime st' = Some now0 /\
    (forall now pnow,
        playing st' = true ->
        exists st'',
          animate host now pnow st' = Normal st'' /\
          elapsedEl st'' = formatTime (now - now0)%Q)).
  { intros s. destruct (Hstart s) as (st' & E & Hs & Hseg).
    exists st'. split; [exact E|]. split; [exact Hs|].
    intros now pnow Hp'. destruct (Hseg Hp') as (from & to & Hf & Ht).
    destruct (animate_emits now pnow st' from to Hp' Hf Ht)
      as (st'' & Ea & _ & _ & He & _).
    exists st''. split; [exact Ea|]. rewrite He, Hs. reflexivity. }
  destruct (Z.of_nat (index st) >=? _).
  - destruct (resetSimulation_loaded st p0 rest Er) as (s & Es & _).
    rewrite Es. cbn [bind]. apply Hfin.
  - cbn [bind]. apply Hfin.
Qed.

(** ** A route of one waypoint *)

Lemma start_up_loaded (json : list RawPoint) (st0 st : State) :
  start_up host true json st0 = Normal st ->
  route st = map waypoint_of_raw json /\
  playing st = playing st0 /\
  segmentFrom st = segmentFrom st0 /\ segmentTo st = segmentTo st0.
Proof.
  unfold start_up, loadRoute. cbn [negb].
  destruct json as [|p rest]; [discriminate|].
  cbn. intros E. injection E as <-. repeat split.
Qed.

Lemma idle_without_route (evs : list Event) (st : State) :
  route st = [] /\ playing st = false /\
  segmentFrom st = None /\ segmentTo st = None ->
  route (run host evs st) = [] /\ playing (run host evs st) = false /\
  segmentFrom (run host evs st) = None /\ segmentTo (run host evs st) = None.
Proof.
  revert st. induction evs as [|ev evs IH]; intros st H; [exact H|].
  cbn [run fold_left]. apply IH. clear IH.
  destruct H as (Hr & Hp & Hf & Ht). unfold after.
  destruct ev as [now0 now1 | value | | h now pnow]; cbn [dispatch].
  - unfold playPauseBtn_click. rewrite Hr. cbn. repeat split; assumption.
  - cbn. repeat split; assumption.
  - unfold resetBtn_click, resetSimulation.
    assert (E : forall a s, route (cancelAnimationFrame a s) = route s)
      by (intros [n|] s; reflexivity).
    cbn [route set_livePolyline set_index]. rewrite E.
    cbn [route set_playing]. rewrite Hr. cbn [nth_error state_of].
    cbn [route set_livePolyline set_index playing segmentFrom segmentTo].
    rewrite E. destruct (animRequest (set_playing false st)); cbn;
      repeat split; assumption.
  - unfold run_frame. destruct (existsb _ _); [|cbn; repeat split; assumption].
    unfold animate. cbn [playing set_rafPending]. rewrite Hp.
    cbn. repeat split; assumption.
Qed.

(** Every state of a session holds the route that was loaded, which is
    not empty. *)
Lemma reachable_route (json : list RawPoint) (st : State) :
  reachable host json st ->
  json <> [] /\ route st = map waypoint_of_raw json.
Proof.
  induction 1 as [early st Hl | ev st Hreach (Hj & Hr)].
  - split; [|apply (start_up_loaded _ _ _ Hl)].
    intros ->. unfold start_up, loadRoute in Hl. discriminate.
  - split; [exact Hj|]. rewrite <- Hr. unfold after.
    destruct ev as [now0 now1 | value | | h now pnow]; cbn [dispatch].
    + pose proof (playPauseBtn_click_settings now0 now1 st) as E.
      injection E; auto.
    + reflexivity.
    + pose proof (resetSimulation_settings st) as E. injection E; auto.
    + pose proof (run_frame_settings h now pnow st) as E. injection E; auto.
Qed.

Lemma playPauseBtn_click_single
    (now0 now1 : Q) (st : State) (w : Waypoint) :
  route st = [w] ->
  playing st = false ->
  exists st',
    playPauseBtn_click host now0 now1 st = Normal st' /\
    playing st' = false /\
    index st' = 0%nat /\
    route st' = [w] /\
    segmentFrom st' = segmentFrom st /\
    segmentTo st' = segmentTo st /\
    progressEl st' = "1 / 1"%string.
Proof.
  intros Hr Hp. unfold playPauseBtn_click.
  rewrite Hr. cbn [List.length Nat.eqb]. rewrite Hp. cbn [negb].
  assert (G : (Z.of_nat (index st) >=? Z.of_nat 1 - 1) = true)
    by (rewrite Z.geb_leb; apply Z.leb_le; lia).
  rewrite G.
  destruct (resetSimulation_loaded st w [] Hr)
    as (s & Es & Hi & _ & _ & _ & _ & Hg & _ & _ & (Hr' & _) & Hf & Ht & _).
  rewrite Es. cbn [bind]. unfold startSegment.
  cbn [index route set_startSimTime set_playPauseBtn set_playing].
  rewrite Hi, Hr', Hr. cbn [List.length Z.of_nat].
  change (0 >=? Z.pos (Pos.of_succ_nat 0) - 1) with true.
  cbn [bind]. eexists; split; [reflexivity|].
  cbn. rewrite Hr', Hr, Hi, Hf, Ht, Hg. unfold progress_text. rewrite Hr.
  repeat split; reflexivity.
Qed.

Lemma single_route_invariant (p : RawPoint) (st : State) :
  reachable host [p] st ->
  route st = [waypoint_of_raw p] /\
  playing st = false /\
  segmentFrom st = None /\ segmentTo st = None.
Proof.
  induction 1 as [early st Hl | ev st Hreach (Hr & Hp & Hf & Ht)].
  - apply start_up_loaded in Hl. destruct Hl as (Hr & Hp & Hf & Ht).
    destruct (idle_without_route early initialState) as (_ & Hp0 & Hf0 & Ht0);
      [repeat split|].
    cbn [map] in Hr. repeat split; congruence.
  - unfold after. destruct ev as [now0 now1 | value | | h now pnow];
      cbn [dispatch].
    + destruct (playPauseBtn_click_single now0 now1 st _ Hr Hp)
        as (st' & E & Hp' & _ & Hr' & Hf' & Ht' & _).
      rewrite E. cbn [state_of]. repeat split; congruence.
    + cbn. repeat split; assumption.
    + unfold resetBtn_click.
      destruct (resetSimulation_loaded st _ [] Hr)
        as (st' & E & _ & _ & _ & _ & _ & _ & Hp' & _ & (Hr' & _)
            & Hf' & Ht' & _).
      rewrite E. cbn [state_of]. repeat split; congruence.
    + unfold run_frame.
      destruct (existsb _ _); [|cbn; repeat split; assumption].
      unfold animate. cbn [playing set_rafPending]. rewrite Hp.
      cbn. repeat split; assumption.
Qed.

(** C9. In a session whose route has exactly one waypoint, a click on the
    play button returns normally and leaves the engine stationary at the
    last (and only) index: it is not playing, no segment has been opened,
    the progress field reads 1 / 1, and the frame callback that the click
    requested changes nothing when it runs. *)
Theorem play_single_waypoint
    (p : RawPoint) (st : State) (now0 now1 : Q) :
  reachable host [p] st ->
  exists st',
    playPauseBtn_click host now0 now1 st = Normal st' /\
    playing st' = false /\
    index st' = 0%nat /\
    List.length (route st') = 1%nat /\
    segmentFrom st' = None /\ segmentTo st' = None /\
    progressEl st' = "1 / 1"%string /\
    (forall now pnow, animate host now pnow st' = Normal st').
Proof.
  intros Hreach.
  destruct (single_route_invariant p st Hreach) as (Hr & Hp & Hf & Ht).
  destruct (playPauseBtn_click_single now0 now1 st _ Hr Hp)
    as (st' & E & Hp' & Hi' & Hr' & Hf' & Ht' & Hg').
  exists st'. rewrite Hr'. repeat split; try congruence.
  intros now pnow. unfold animate. rewrite Hp'. reflexivity.
Qed.

(** ** The speed multiplier *)

Lemma startSegment_uses_multiplier
    (now : Q) (i : nat) (st : State) (w1 w2 : Waypoint) :
  nth_error (route st) i = Some w1 ->
  nth_error (route st) (i + 1) = Some w2 ->
  exists st' dt,
    startSegment now i st = Normal st' /\
    0 < dt /\
    segmentDuration st' = (inject_Z dt / speedMultiplier st)%Q.
Proof.
  intros H1 H2. unfold startSegment.
  rewrite (startSegment_guard_false i st w1 w2 H1 H2).
  cbn [segmentFrom segmentTo set_segmentFrom set_segmentTo set_segmentStartTime
       route speedMultiplier].
  rewrite H1, H2.
  destruct (timestamp w1) as [t1|]; [destruct (timestamp w2) as [t2|]|].
  - destruct (t2 - t1 <=? 0) eqn:Ed.
    + exists (set_segmentDuration (inject_Z 2000 / speedMultiplier st)
                (set_segmentStartTime (Some now)
                   (set_segmentTo (Some w2) (set_segmentFrom (Some w1) st)))),
        2000.
      repeat split.
    + apply Z.leb_gt in Ed. eexists. exists (t2 - t1).
      split; [reflexivity|]. split; [exact Ed | reflexivity].
  - eexists. exists 2000. repeat split.
  - eexists. exists 2000. repeat split.
Qed.

(** C10. [resetSimulation] leaves the speed multiplier as it was, whether
    it returns or throws; of the events only a change of the speed slider
    writes it; and a segment opened after a reset is timed with the
    multiplier chosen before the reset. *)
Theorem reset_keeps_speedMultiplier (st : State) :
  speedMultiplier (state_of (resetSimulation host st)) = speedMultiplier st /\
  (forall ev,
      (forall value, ev <> SetSpeed value) ->
      speedMultiplier (after host ev st) = speedMultiplier st) /\
  (forall st1 now i w1 w2,
      resetSimulation host st = Normal st1 ->
      nth_error (route st) i = Some w1 ->
      nth_error (route st) (i + 1) = Some w2 ->
      exists st2 dt,
        startSegment now i st1 = Normal st2 /\
        0 < dt /\
        segmentDuration st2 = (inject_Z dt / speedMultiplier st)%Q).
Proof.
  assert (Hreset :
    speedMultiplier (state_of (resetSimulation host st)) = speedMultiplier st).
  { pose proof (resetSimulation_settings st) as E. injection E; auto. }
  split; [exact Hreset|]. split.
  - intros ev Hev. unfold after.
    destruct ev as [now0 now1 | value | | h now pnow]; cbn [dispatch].
    + pose proof (playPauseBtn_click_settings now0 now1 st) as E.
      injection E; auto.
    + destruct (Hev value). reflexivity.
    + exact Hreset.
    + pose proof (run_frame_settings h now pnow st) as E. injection E; auto.
  - intros st1 now i w1 w2 E H1 H2.
    pose proof (resetSimulation_settings st) as S.
    rewrite E in S, Hreset. cbn [state_of] in S, Hreset.
    injection S as Sr _ _ _.
    rewrite <- Sr in H1, H2. rewrite <- Hreset.
    apply (startSegment_uses_multiplier now i st1 w1 w2 H1 H2).
Qed.

End Properties.

(** * The properties at concrete sessions *)

Lemma startSegment_duration_witness :
  nth_error (route (Demo.loaded Demo.json2)) 0 = Some Demo.start2 /\
  nth_error (route (Demo.loaded Demo.json2)) (0 + 1) = Some Demo.end2 /\
  (0 < speedMultiplier (Demo.loaded Demo.json2))%Q /\
  exists st',
    startSegment 1000 0 (Demo.loaded Demo.json2) = Normal st' /\
    segmentFrom st' = Some Demo.start2 /\ segmentTo st' = Some Demo.end2 /\
    (forall t1 t2,
        timestamp Demo.start2 = Some t1 -> timestamp Demo.end2 = Some t2 ->
        0 < t2 - t1 ->
        segmentDuration st' =
          (inject_Z (t2 - t1) / speedMultiplier (Demo.loaded Demo.json2))%Q) /\
    (timestamp Demo.start2 = None \/ timestamp Demo.end2 = None \/
     (exists t1 t2,
         timestamp Demo.start2 = Some t1 /\ timestamp Demo.end2 = Some t2 /\
         t2 - t1 <= 0) ->
     segmentDuration st' =
       (2000 / speedMultiplier (Demo.loaded Demo.json2))%Q) /\
    (0 < segmentDuration st')%Q.
Proof.
  split; [vm_compute; reflexivity|].
  split; [vm_compute; reflexivity|].
  split; [vm_compute; reflexivity|].
  apply (startSegment_duration 1000 0 (Demo.loaded Demo.json2)
           Demo.start2 Demo.end2);
    vm_compute; reflexivity.
Defined.

(** Against C2: the segment from (51, -0.0015) to (8.56, 0.0007) at
    fraction 1, in binary64. The latitude comes out as 8.560000000000002,
    one place above the end waypoint's 8.56, and the longitude as
    0.0007000000000000001, which is past the end waypoint's 0.0007. *)
Lemma interpolate_misses_end_waypoint :
  fst (Binary64.interpolate Demo.from64 Demo.to64 Binary64.one)
    = S754_finite false 4818851601286432 (-49) /\
  fst Demo.to64 = S754_finite false 4818851601286431 (-49) /\
  SFeqb (fst (Binary64.interpolate Demo.from64 Demo.to64 Binary64.one))
        (fst Demo.to64) = false /\
  SFeqb (snd (Binary64.interpolate Demo.from64 Demo.to64 Binary64.one))
        (snd Demo.to64) = false /\
  SFltb (snd Demo.from64) (snd Demo.to64) = true /\
  SFltb (snd Demo.to64)
        (snd (Binary64.interpolate Demo.from64 Demo.to64 Binary64.one))
    = true.
Proof. repeat split; vm_compute; reflexivity. Qed.

Lemma animate_position_witness :
  playing Demo.playing2 = true /\
  segmentFrom Demo.playing2 = Some Demo.start2 /\
  segmentTo Demo.playing2 = Some Demo.end2 /\
  Binary64.finite (fst Demo.from64) = true /\
  Binary64.finite (snd Demo.from64) = true /\
  Binary64.finite (Binary64.sub (fst Demo.to64) (fst Demo.from64)) = true /\
  Binary64.finite (Binary64.sub (snd Demo.to64) (snd Demo.from64)) = true /\
  (exists st',
      animate Demo.host 1500 1500 Demo.playing2 = Normal st' /\
      bikeMarker st' =
        (lerp (lat Demo.start2) (lat Demo.end2)
           (tick_t 1500 (anchored 1500 Demo.playing2)),
         lerp (lng Demo.start2) (lng Demo.end2)
           (tick_t 1500 (anchored 1500 Demo.playing2)))) /\
  SFeqb (fst (Binary64.interpolate Demo.from64 Demo.to64 Binary64.zero))
        (fst Demo.from64) = true /\
  SFeqb (snd (Binary64.interpolate Demo.from64 Demo.to64 Binary64.zero))
        (snd Demo.from64) = true /\
  Binary64.valid (Binary64.sub (fst Demo.to64) (fst Demo.from64)) = true /\
  Binary64.valid (Binary64.sub (snd Demo.to64) (snd Demo.from64)) = true /\
  Binary64.interpolate Demo.from64 Demo.to64 Binary64.one =
    (Binary64.add (fst Demo.from64)
       (Binary64.sub (fst Demo.to64) (fst Demo.from64)),
     Binary64.add (snd Demo.from64)
       (Binary64.sub (snd Demo.to64) (snd Demo.from64))).
Proof.
  assert (V1 : Binary64.valid
                 (Binary64.sub (fst Demo.to64) (fst Demo.from64)) = true)
    by (vm_compute; reflexivity).
  assert (V2 : Binary64.valid
                 (Binary64.sub (snd Demo.to64) (snd Demo.from64)) = true)
    by (vm_compute; reflexivity).
  assert (Hp : playing Demo.playing2 = true) by (vm_compute; reflexivity).
  assert (Hf : segmentFrom Demo.playing2 = Some Demo.start2)
    by (vm_compute; reflexivity).
  assert (Ht : segmentTo Demo.playing2 = Some Demo.end2)
    by (vm_compute; reflexivity).
  assert (H1 : Binary64.finite (fst Demo.from64) = true)
    by (vm_compute; reflexivity).
  assert (H2 : Binary64.finite (snd Demo.from64) = true)
    by (vm_compute; reflexivity).
  assert (H3 : Binary64.finite
                 (Binary64.sub (fst Demo.to64) (fst Demo.from64)) = true)
    by (vm_compute; reflexivity).
  assert (H4 : Binary64.finite
                 (Binary64.sub (snd Demo.to64) (snd Demo.from64)) = true)
    by (vm_compute; reflexivity).
  destruct (animate_position Demo.host 1500 1500 Demo.playing2
              Demo.start2 Demo.end2 Hp Hf Ht)
    as ((st' & Ea & Em & _) & Hb & Hone).
  destruct (Hb Demo.from64 Demo.to64 false H1 H2 H3 H4) as (B1 & B2).
  pose proof (Hone Demo.from64 Demo.to64 V1 V2) as B3.
  repeat split; try assumption.
  exists st'. split; assumption.
Defined.

(** C3 at a route of two waypoints: play is clicked at 1000 and the frame
    at 2000 completes the segment. The marker is on the last waypoint and
    the index is the last one, yet the progress field still reads 1 / 2,
    not the 2 / 2 that belongs to that index. *)
Theorem progress_lags_at_final_waypoint :
  index Demo.finished2 = 1%nat /\
  List.length (route Demo.finished2) = 2%nat /\
  playing Demo.finished2 = false /\
  same_place (bikeMarker Demo.finished2) (position Demo.end2) /\
  progressEl Demo.finished2 = "1 / 2"%string /\
  progress_text (index Demo.finished2) Demo.finished2 = "2 / 2"%string.
Proof. repeat split; vm_compute; reflexivity. Qed.

(** Against C4: after a pause the next play moves the session start from
    1000 to 3000, and the elapsed field starts again from zero. *)
Lemma resume_reanchors_session_start :
  playing Demo.paused2 = false /\
  startSimTime Demo.paused2 = Some 1000%Q /\
  startSimTime Demo.resumed2 = Some 3000%Q /\
  startSimTime Demo.resumed2 <> startSimTime Demo.paused2 /\
  elapsedEl (after Demo.host (Frame 3 3500 3500) Demo.resumed2)
    = "00:00:00"%string.
Proof.
  repeat split; try (vm_compute; reflexivity).
  vm_compute. discriminate.
Qed.

Lemma play_anchors_session_start_witness :
  route Demo.paused2 <> [] /\
  playing Demo.paused2 = false /\
  exists st',
    playPauseBtn_click Demo.host 3000 3000 Demo.paused2 = Normal st' /\
    startSimTime st' = Some 3000%Q /\
    (forall now pnow,
        playing st' = true ->
        exists st'',
          animate Demo.host now pnow st' = Normal st'' /\
          elapsedEl st'' = formatTime (now - 3000)%Q).
Proof.
  split; [vm_compute; discriminate|].
  split; [vm_compute; reflexivity|].
  apply (play_anchors_session_start Demo.host 3000 3000 Demo.paused2);
    [vm_compute; discriminate | vm_compute; reflexivity].
Defined.

(** Against C5: a frame stamped 500 while the segment started at 1000
    gives the fraction -1/2, and the marker is put before the start
    waypoint. *)
Lemma tick_fraction_negative :
  playing Demo.playing2 = true /\
  segmentStartTime Demo.playing2 = Some 1000%Q /\
  (tick_t 500 (anchored 500 Demo.playing2) == - (1 # 2))%Q /\
  ~ (0 <= tick_t 500 (anchored 500 Demo.playing2))%Q /\
  same_place
    (bikeMarker (after Demo.host (Frame 1 500 500) Demo.playing2))
    (- (1 # 2), - (1 # 2))%Q.
Proof.
  repeat split; try (vm_compute; reflexivity).
  vm_compute. intros H. apply H. reflexivity.
Qed.

Lemma tick_fraction_bounds_witness :
  playing Demo.playing2 = true /\
  segmentFrom Demo.playing2 = Some Demo.start2 /\
  segmentTo Demo.playing2 = Some Demo.end2 /\
  let start := number_of (segmentStartTime (anchored 1500 Demo.playing2)) in
  let t := Math_min 1 ((1500 - start) / segmentDuration Demo.playing2) in
  (exists st',
      animate Demo.host 1500 1500 Demo.playing2 = Normal st' /\
      bikeMarker st' =
        (lerp (lat Demo.start2) (lat Demo.end2) t,
         lerp (lng Demo.start2) (lng Demo.end2) t)) /\
  (t <= 1)%Q /\
  ((start <= 1500)%Q -> (0 < segmentDuration Demo.playing2)%Q -> (0 <= t)%Q).
Proof.
  split; [vm_compute; reflexivity|].
  split; [vm_compute; reflexivity|].
  split; [vm_compute; reflexivity|].
  apply (tick_fraction_bounds Demo.host 1500 1500 Demo.playing2
           Demo.start2 Demo.end2);
    vm_compute; reflexivity.
Defined.

(** Against C6: half the equator without timestamps. The segment is played
    with the fallback duration of 2000, but the speed shown is 0.00 km/h
    and not the distance over two seconds. *)
Lemma speed_ignores_fallback_duration :
  segmentFrom Demo.playingEquator = Some Demo.west /\
  segmentTo Demo.playingEquator = Some Demo.east /\
  segmentDuration Demo.playingEquator = 2000%Q /\
  speedEl (after Demo.host (Frame 1 1500 1500) Demo.playingEquator)
    = "0.00 km/h"%string /\
  (segSpeed Demo.host Demo.west Demo.east == 0)%Q /\
  ~ (segSpeed Demo.host Demo.west Demo.east ==
     haversine Demo.host (position Demo.west) (position Demo.east)
       / (2000 / 1000) * (36 # 10))%Q.
Proof.
  repeat split; try (vm_compute; reflexivity).
  vm_compute. discriminate.
Qed.

Lemma animate_speed_witness :
  playing Demo.playingEquator = true /\
  segmentFrom Demo.playingEquator = Some Demo.west /\
  segmentTo Demo.playingEquator = Some Demo.east /\
  let segDist :=
    haversine Demo.host (position Demo.west) (position Demo.east) in
  (exists st',
      animate Demo.host 1500 1500 Demo.playingEquator = Normal st' /\
      speedEl st' =
        (toFixed Demo.host (segSpeed Demo.host Demo.west Demo.east) 2
           ++ " km/h")%string) /\
  (forall now2 pnow2 st2,
      playing st2 = true ->
      segmentFrom st2 = Some Demo.west ->
      segmentTo st2 = Some Demo.east ->
      speedEl (state_of (animate Demo.host now2 pnow2 st2)) =
      speedEl (state_of (animate Demo.host 1500 1500 Demo.playingEquator))) /\
  (0 < segMs Demo.west Demo.east ->
   segSpeed Demo.host Demo.west Demo.east =
     (segDist / (inject_Z (segMs Demo.west Demo.east) / 1000) * (36 # 10))%Q) /\
  (segMs Demo.west Demo.east <= 0 ->
   segSpeed Demo.host Demo.west Demo.east = 0%Q) /\
  ((0 <= segDist)%Q -> (0 <= segSpeed Demo.host Demo.west Demo.east)%Q).
Proof.
  split; [vm_compute; reflexivity|].
  split; [vm_compute; reflexivity|].
  split; [vm_compute; reflexivity|].
  apply (animate_speed Demo.host 1500 1500 Demo.playingEquator
           Demo.west Demo.east);
    vm_compute; reflexivity.
Defined.

Lemma resetSimulation_restores_witness :
  route Demo.playing2 = Demo.start2 :: [Demo.end2] /\
  exists st',
    resetSimulation Demo.host Demo.playing2 = Normal st' /\
    index st' = 0%nat /\
    livePolyline st' = [] /\
    bikeMarker st' = (lat Demo.start2, lng Demo.start2) /\
    elapsedEl st' = "00:00:00"%string /\
    speedEl st' = em_dash /\
    playing st' = false /\
    (forall h, animRequest Demo.playing2 = Some h -> ~ In h (rafPending st')) /\
    (forall now pnow, animate Demo.host now pnow st' = Normal st').
Proof.
  split; [vm_compute; reflexivity|].
  apply (resetSimulation_restores Demo.host Demo.playing2
           Demo.start2 [Demo.end2]);
    vm_compute; reflexivity.
Defined.

(** Against C8: with no route loaded, a change of the speed slider stores
    the new multiplier, and a click on reset ends in a [TypeError]. *)
Lemma commands_without_route_not_ignored :
  route initialState = [] /\
  speedMultiplier initialState = 1%Q /\
  speedMultiplier (after Demo.host (SetSpeed "2") initialState) = 2%Q /\
  dispatch Demo.host (SetSpeed "2") initialState <> Normal initialState /\
  dispatch Demo.host Reset initialState = Throw TypeError initialState.
Proof.
  repeat split; try (vm_compute; reflexivity).
  vm_compute. discriminate.
Qed.

Lemma commands_without_route_witness :
  route initialState = [] /\
  (forall now0 now1,
      playPauseBtn_click Demo.host now0 now1 initialState
      = Normal initialState) /\
  (forall value,
      speedRange_input Demo.host value initialState =
      Normal
        (set_speedValue
           (numberToString Demo.host (parseFloat Demo.host value) ++ "×")
           (set_speedMultiplier (parseFloat Demo.host value) initialState))).
Proof.
  split; [vm_compute; reflexivity|].
  apply (commands_without_route Demo.host initialState);
    vm_compute; reflexivity.
Defined.

Lemma play_single_waypoint_witness :
  reachable Demo.host [Demo.raw1] (Demo.loaded Demo.json1) /\
  exists st',
    playPauseBtn_click Demo.host 1000 1000 (Demo.loaded Demo.json1)
      = Normal st' /\
    playing st' = false /\
    index st' = 0%nat /\
    List.length (route st') = 1%nat /\
    segmentFrom st' = None /\ segmentTo st' = None /\
    progressEl st' = "1 / 1"%string /\
    (forall now pnow, animate Demo.host now pnow st' = Normal st').
Proof.
  assert (R : reachable Demo.host [Demo.raw1] (Demo.loaded Demo.json1))
    by (apply (reach_load Demo.host [Demo.raw1] []); vm_compute; reflexivity).
  split; [exact R|].
  apply (play_single_waypoint Demo.host Demo.raw1 (Demo.loaded Demo.json1)
           1000 1000 R).
Defined.

Lemma reset_keeps_speedMultiplier_witness :
  resetSimulation Demo.host Demo.finished2
    = Normal (state_of (resetSimulation Demo.host Demo.finished2)) /\
  nth_error (route Demo.finished2) 0 = Some Demo.start2 /\
  nth_error (route Demo.finished2) (0 + 1) = Some Demo.end2 /\
  speedMultiplier (state_of (resetSimulation Demo.host Demo.finished2))
    = speedMultiplier Demo.finished2 /\
  speedMultiplier (after Demo.host Reset Demo.finished2)
    = speedMultiplier Demo.finished2 /\
  exists st2 dt,
    startSegment 5000 0 (state_of (resetSimulation Demo.host Demo.finished2))
      = Normal st2 /\
    0 < dt /\
    segmentDuration st2 = (inject_Z dt / speedMultiplier Demo.finished2)%Q.
Proof.
  destruct (reset_keeps_speedMultiplier Demo.host Demo.finished2)
    as (H1 & H2 & H3).
  split; [vm_compute; reflexivity|].
  split; [vm_compute; reflexivity|].
  split; [vm_compute; reflexivity|].
  split; [exact H1|].
  split; [apply H2; discriminate|].
  apply (H3 _ 5000%Q 0%nat Demo.start2 Demo.end2);
    vm_compute; reflexivity.
Defined.

(** The scenario of the specification: three waypoints two seconds apart,
    play clicked at 1000. One second later the marker is half way along
    the first segment and the progress reads 1 / 3; three seconds later it
    is half way along the second one and the progress reads 2 / 3. *)
Example three_waypoint_scenario :
  let json :=
    [ mkRawPoint 0 0 (Some 0); mkRawPoint 1 1 (Some 2000);
      mkRawPoint 2 2 (Some 4000) ] in
  let s0 := after Demo.host (PlayPause 1000 1000) (Demo.loaded json) in
  let s1 := after Demo.host (Frame 1 2000 2000) s0 in
  let s2 := after Demo.host (Frame 2 3000 3000) s1 in
  let s3 := after Demo.host (Frame 3 4000 4000) s2 in
  same_place (bikeMarker s1) (1 # 2, 1 # 2)%Q /\
  progressEl s1 = "1 / 3"%string /\
  same_place (bikeMarker s3) (3 # 2, 3 # 2)%Q /\
  progressEl s3 = "2 / 3"%string.
Proof. repeat split; vm_compute; reflexivity. Qed.

(** * Further properties of the engine *)

Section Sessions.

Variable host : Host.

(** ** How a tick ends *)

Lemma anchored_cases (now : Q) (st : State) :
  anchored now st = st \/
  anchored now st = set_segmentStartTime (Some now) st.
Proof. unfold anchored. destruct (falsy _); [right | left]; reflexivity. Qed.

(** The engine variables after a tick of a playing engine with an open
    segment, by the fraction [t] of the tick and the place of the index. *)
Lemma animate_step (now pnow : Q) (st : State) (from to : Waypoint) :
  playing st = true ->
  segmentFrom st = Some from ->
  segmentTo st = Some to ->
  let t := tick_t now (anchored now st) in
  let h := S (rafLast st) in
  exists st',
    animate host now pnow st = Normal st' /\
    route st' = route st /\
    ((Qle_bool 1 t = false /\
      index st' = index st /\ playing st' = true /\
      segmentFrom st' = Some from /\ segmentTo st' = Some to /\
      rafPending st' = rafPending st ++ [h] /\ animRequest st' = Some h)
     \/
     (Qle_bool 1 t = true /\
      (index st + 2 < List.length (route st))%nat /\
      index st' = (index st + 1)%nat /\ playing st' = true /\
      segmentFrom st' = nth_error (route st) (index st + 1) /\
      segmentTo st' = nth_error (route st) (index st + 1 + 1) /\
      segmentStartTime st' = Some pnow /\
      rafPending st' = rafPending st ++ [h] /\ animRequest st' = Some h)
     \/
     (Qle_bool 1 t = true /\
      (List.length (route st) <= index st + 2)%nat /\
      index st' = (index st + 1)%nat /\ playing st' = false /\
      playPauseBtn st' = "Play"%string /\
      rafPending st' = rafPending st)).
Proof.
  intros Hp Hf Ht t h. subst h.
  unfold animate. rewrite Hp. cbn [negb].
  remember (tick_t now (anchored now st)) as t' eqn:Et. subst t.
  assert (Hs : segmentFrom (anchored now st) = Some from /\
               segmentTo (anchored now st) = Some to /\
               route (anchored now st) = route st /\
               index (anchored now st) = index st /\
               playing (anchored now st) = true /\
               queue (anchored now st) = queue st).
  { destruct (anchored_cases now st) as [E|E]; rewrite E; cbn;
      repeat split; assumption. }
  destruct Hs as (Sf & St & Sr & Si & Sp & Sq).
  generalize dependent (anchored now st). intros s Et Sf St Sr Si Sp Sq.
  injection Sq as Sq1 Sq2.
  rewrite Sf, St.
  destruct (Qle_bool 1 t') eqn:Q1.
  - cbn [index set_index set_progressEl set_speedEl set_elapsedEl
         set_timestampEl set_lngEl set_latEl set_livePolyline set_bikeMarker
         route].
    match goal with
    | |- context [if ?g then _ else _] => destruct g eqn:G
    end.
    + apply Z.ltb_lt in G.
      match goal with
      | |- context [startSegment ?n ?i ?x] =>
          destruct (startSegment_cases n i x)
            as [(Hle & _) | (Hlt & s' & Es & Hpl & Hsf & Hst & Hss)];
          [cbn in Hle; lia|];
          pose proof (startSegment_queue n i x) as Hq;
          pose proof (startSegment_session n i x) as Hse;
          pose proof (startSegment_settings n i x) as Hset;
          rewrite Es in *
      end.
      cbn [bind state_of] in *.
      cbn in Hlt, Hpl, Hsf, Hst, Hq, Hse, Hset.
      injection Hq as Hq1 Hq2. injection Hse as Hse1 _ _.
      injection Hset as Hset1 _ _ _.
      eexists; split; [reflexivity|].
      cbn. split; [congruence|]. right; left.
      rewrite Hq1, Hq2, Hse1, Hpl, Hsf, Hst, Hss, Sr, Si, Sp, Sq1, Sq2.
      rewrite Sr, Si in Hlt.
      repeat split; try reflexivity. lia.
    + apply Z.ltb_ge in G.
      eexists; split; [reflexivity|].
      cbn. split; [congruence|]. right; right.
      rewrite Sr, Si in G. rewrite Si, Sq1.
      repeat split; try reflexivity. lia.
  - eexists; split; [reflexivity|].
    cbn. split; [congruence|]. left.
    rewrite Si, Sp, Sf, St, Sq1, Sq2. repeat split; reflexivity.
Qed.

(** ** The shape of the engine is kept by every event *)

Lemma remove_only (h : nat) : remove Nat.eq_dec h [h] = [].
Proof. cbn. destruct (Nat.eq_dec h h); [reflexivity | congruence]. Qed.

Lemma cancel_requested (st : State) :
  well_formed st ->
  rafPending (cancelAnimationFrame (animRequest st) st) = [].
Proof.
  intros (_ & Hplay & Hidle).
  assert (H : rafPending st = [] \/
              exists h, rafPending st = [h] /\ animRequest st = Some h).
  { destruct (playing st).
    - destruct (Hplay eq_refl) as (_ & _ & _ & h & H1 & H2). eauto.
    - destruct (Hidle eq_refl) as [H | (h & H1 & H2 & _)]; eauto. }
  destruct H as [H | (h & H1 & H2)].
  - destruct (animRequest st); cbn; rewrite ?H; reflexivity.
  - rewrite H2. cbn. rewrite H1. apply remove_only.
Qed.

Lemma well_formed_route (st : State) :
  well_formed st -> exists p0 rest, route st = p0 :: rest.
Proof.
  intros (Hi & _). destruct (route st) as [|p0 rest]; [cbn in Hi; lia|eauto].
Qed.

Lemma well_formed_reset (st : State) :
  well_formed st ->
  exists st',
    resetSimulation host st = Normal st' /\
    well_formed st' /\
    index st' = 0%nat /\ playing st' = false /\ rafPending st' = [] /\
    route st' = route st.
Proof.
  intros W. destruct (well_formed_route st W) as (p0 & rest & Hr).
  destruct (resetSimulation_loaded host st p0 rest Hr)
    as (st' & E & Hi' & _ & _ & _ & _ & _ & Hp' & Hq & (Hr' & _) & _).
  rewrite (cancel_requested st W) in Hq.
  exists st'. split; [exact E|]. split; [|repeat split; assumption].
  - unfold well_formed. rewrite Hi', Hr', Hr, Hp', Hq. cbn.
    repeat split; try discriminate; try lia. intros _. left. reflexivity.
Qed.

(** Play is clicked in a state that is not playing and has no frame
    queued. *)
Lemma well_formed_start (now0 now1 : Q) (st : State) :
  well_formed st ->
  playing st = false ->
  rafPending st = [] ->
  exists st',
    (startSegment now1 (index st)
       (set_startSimTime (Some now0)
          (set_playPauseBtn "Pause" (set_playing true st)))
       >>= fun s => Normal (requestAnimationFrame s)) = Normal st' /\
    well_formed st' /\
    index st' = index st /\ route st' = route st /\
    startSimTime st' = Some now0 /\
    rafPending st' = [S (rafLast st)] /\
    display st' = display st /\
    ((index st + 1 < List.length (route st))%nat ->
     playing st' = true /\ segmentStartTime st' = Some now1) /\
    ((List.length (route st) <= index st + 1)%nat -> playing st' = false).
Proof.
  intros (Hi & _ & _) Hp Hq.
  match goal with
  | |- context [startSegment ?n ?i ?x] =>
      pose proof (startSegment_queue n i x) as Q;
      pose proof (startSegment_session n i x) as S;
      pose proof (startSegment_settings n i x) as T;
      pose proof (startSegment_display n i x) as D;
      destruct (startSegment_cases n i x)
        as [(Hle & Es) | (Hlt & s' & Es & Hpl & Hsf & Hst & Hss)];
      rewrite Es in *; cbn [bind state_of] in *
  end.
  - cbn in Hle. eexists; split; [reflexivity|].
    cbn. unfold well_formed. cbn. rewrite Hq.
    repeat split; try reflexivity; try discriminate; try lia.
    intros _. right. eexists. repeat split. exact Hle.
  - cbn in Hlt, Hpl, Hsf, Hst, Q, S, T, D.
    injection Q as Q1 Q2. injection S as S1 S2 S3.
    injection T as T1 _ _ _.
    eexists; split; [reflexivity|].
    unfold well_formed, display in *. cbn.
    rewrite Q1, Q2, S1, S2, T1, Hpl, Hsf, Hst, Hss, Hq.
    injection D as -> -> -> -> -> -> -> ->.
    repeat split; try reflexivity; try discriminate; try lia.
    eexists. split; reflexivity.
Qed.

Lemma well_formed_click (now0 now1 : Q) (st : State) :
  well_formed st ->
  exists st',
    playPauseBtn_click host now0 now1 st = Normal st' /\ well_formed st'.
Proof.
  intros W. destruct (well_formed_route st W) as (p0 & rest & Hr).
  assert (Hn : (List.length (route st) =? 0)%nat = false)
    by (rewrite Hr; reflexivity).
  unfold playPauseBtn_click. rewrite Hn.
  destruct (playing st) eqn:Hp; cbn [negb].
  - eexists; split; [reflexivity|].
    pose proof (cancel_requested st W) as Hc.
    destruct W as (Hi & _ & _).
    assert (E : rafPending
                  (cancelAnimationFrame
                     (animRequest
                        (set_playPauseBtn "Play" (set_playing false st)))
                     (set_playPauseBtn "Play" (set_playing false st))) = []).
    { cbn [animRequest set_playPauseBtn set_playing].
      destruct (animRequest st); cbn in *; assumption. }
    unfold well_formed. rewrite E.
    cbn [animRequest set_playPauseBtn set_playing].
    destruct (animRequest st); cbn;
      (repeat split; try discriminate; try assumption; intros _; left;
       reflexivity).
  - destruct (Z.of_nat (index st) >=? Z.of_nat (List.length (route st)) - 1)
      eqn:G; rewrite Z.geb_leb in G.
    + destruct (well_formed_reset st W)
        as (s1 & E1 & W1 & _ & Hp1 & Hq1 & _).
      rewrite E1. cbn [bind].
      destruct (well_formed_start now0 now1 s1 W1 Hp1 Hq1)
        as (st' & E & W' & _).
      exists st'. split; assumption.
    + cbn [bind]. apply Z.leb_gt in G.
      assert (Hq : rafPending st = []).
      { destruct W as (_ & _ & Hidle).
        destruct (Hidle Hp) as [H | (h & _ & _ & Hle)]; [exact H | lia]. }
      destruct (well_formed_start now0 now1 st W Hp Hq)
        as (st' & E & W' & _).
      exists st'. split; assumption.
Qed.

Lemma well_formed_frame (h : nat) (now pnow : Q) (st : State) :
  well_formed st ->
  exists st',
    run_frame host h now pnow st = Normal st' /\ well_formed st'.
Proof.
  intros W. unfold run_frame.
  destruct (existsb (Nat.eqb h) (rafPending st)) eqn:Ex;
    [|exists st; split; [reflexivity | exact W]].
  assert (Hq : rafPending st = [h]).
  { apply existsb_exists in Ex. destruct Ex as (x & Hin & Hx).
    apply Nat.eqb_eq in Hx. subst x.
    destruct W as (_ & Hplay & Hidle).
    destruct (playing st).
    - destruct (Hplay eq_refl) as (_ & _ & _ & k & H1 & _).
      rewrite H1 in *. destruct Hin as [-> | []]. reflexivity.
    - destruct (Hidle eq_refl) as [H | (k & H1 & _)]; rewrite ?H, ?H1 in *.
      + destruct Hin.
      + destruct Hin as [-> | []]. reflexivity. }
  rewrite Hq, remove_only.
  destruct W as (Hi & Hplay & Hidle).
  destruct (playing st) eqn:Hp.
  - destruct (Hplay eq_refl) as (Hlt & Hf & Ht & _).
    destruct (nth_error (route st) (index st)) as [from|] eqn:E1.
    2:{ apply nth_error_None in E1. lia. }
    destruct (nth_error (route st) (index st + 1)) as [to|] eqn:E2.
    2:{ apply nth_error_None in E2. lia. }
    destruct (animate_step now pnow (set_rafPending [] st) from to)
      as (st' & E & Hr & Hcases); try assumption.
    exists st'. split; [exact E|].
    cbn in Hr, Hcases. unfold well_formed. rewrite Hr.
    destruct Hcases
      as [(_ & Ki & Kp & Kf & Kt & Kq & Ka)
         | [(_ & Klt & Ki & Kp & Kf & Kt & _ & Kq & Ka)
           | (_ & Kle & Ki & Kp & _ & Kq)]];
      rewrite Ki, Kp, Kq, ?Kf, ?Kt, ?Ka.
    + repeat split; try discriminate; try assumption; try congruence.
      eexists; split; reflexivity.
    + repeat split; try discriminate; try lia.
      eexists; split; reflexivity.
    + repeat split; try discriminate; try lia. intros _. left. reflexivity.
  - exists (set_rafPending [] st). split.
    + unfold animate. cbn [playing set_rafPending]. rewrite Hp. reflexivity.
    + unfold well_formed. cbn. rewrite Hp.
      repeat split; try discriminate; try assumption.
      intros _. left. reflexivity.
Qed.

(** Every event on a well-formed engine is handled without an exception
    and leaves the engine well formed. *)
Lemma well_formed_dispatch (ev : Event) (st : State) :
  well_formed st ->
  exists st', dispatch host ev st = Normal st' /\ well_formed st'.
Proof.
  intros W. destruct ev as [now0 now1 | value | | h now pnow]; cbn [dispatch].
  - apply well_formed_click; exact W.
  - eexists; split; [reflexivity | exact W].
  - destruct (well_formed_reset st W) as (st' & E & W' & _).
    exists st'. split; assumption.
  - apply well_formed_frame; exact W.
Qed.

(** Before the route arrives nothing plays and no frame is queued. *)
Lemma idle_queue_without_route (evs : list Event) (st : State) :
  route st = [] /\ playing st = false /\ rafPending st = [] ->
  route (run host evs st) = [] /\ playing (run host evs st) = false /\
  rafPending (run host evs st) = [].
Proof.
  revert st. induction evs as [|ev evs IH]; intros st H; [exact H|].
  cbn [run fold_left]. apply IH. clear IH.
  destruct H as (Hr & Hp & Hq). unfold after.
  destruct ev as [now0 now1 | value | | h now pnow]; cbn [dispatch].
  - unfold playPauseBtn_click. rewrite Hr. cbn. repeat split; assumption.
  - cbn. repeat split; assumption.
  - unfold resetBtn_click, resetSimulation.
    assert (E : forall a s, route (cancelAnimationFrame a s) = route s)
      by (intros [n|] s; reflexivity).
    cbn [route set_livePolyline set_index]. rewrite E.
    cbn [route set_playing]. rewrite Hr. cbn [nth_error state_of].
    cbn [route set_livePolyline set_index playing rafPending].
    rewrite E. cbn [animRequest set_playing].
    destruct (animRequest st); cbn; rewrite ?Hq; repeat split; assumption.
  - unfold run_frame. rewrite Hq. cbn. repeat split; assumption.
Qed.

Lemma start_up_well_formed (json : list RawPoint) (st0 st : State) :
  playing st0 = false ->
  rafPending st0 = [] ->
  start_up host true json st0 = Normal st ->
  well_formed st.
Proof.
  unfold start_up, loadRoute. cbn [negb]. intros Hp Hq.
  destruct json as [|p rest]; [discriminate|].
  cbn. intros E. injection E as <-.
  unfold well_formed. cbn. rewrite Hp, Hq.
  repeat split; try discriminate; try lia. intros _. left. reflexivity.
Qed.

Lemma reachable_well_formed (json : list RawPoint) (st : State) :
  reachable host json st -> well_formed st.
Proof.
  induction 1 as [early st Hl | ev st Hreach W].
  - destruct (idle_queue_without_route early initialState) as (_ & Hp & Hq);
      [repeat split|].
    apply (start_up_well_formed json _ st Hp Hq Hl).
  - unfold after. destruct (well_formed_dispatch ev st W) as (st' & E & W').
    rewrite E. exact W'.
Qed.

(** ** What holds in every state of a session *)

(** X1. In every state of a session the route is the one that was loaded
    and the index is the position of one of its waypoints. *)
Theorem index_within_route (json : list RawPoint) (st : State) :
  reachable host json st ->
  route st = map waypoint_of_raw json /\
  (index st < List.length (route st))%nat.
Proof.
  intros Hreach. split.
  - apply (reachable_route host json st Hreach).
  - apply (reachable_well_formed json st Hreach).
Qed.

(** X2. While the engine is playing, the open segment is the one from the
    waypoint at the index to the next waypoint, and both exist. *)
Theorem playing_segment_is_current (json : list RawPoint) (st : State) :
  reachable host json st ->
  playing st = true ->
  exists from to,
    nth_error (route st) (index st) = Some from /\
    nth_error (route st) (index st + 1) = Some to /\
    segmentFrom st = Some from /\ segmentTo st = Some to.
Proof.
  intros Hreach Hp.
  destruct (reachable_well_formed json st Hreach) as (_ & Hplay & _).
  destruct (Hplay Hp) as (Hlt & Hf & Ht & _).
  destruct (nth_error (route st) (index st)) as [from|] eqn:E1.
  2:{ apply nth_error_None in E1. lia. }
  destruct (nth_error (route st) (index st + 1)) as [to|] eqn:E2.
  2:{ apply nth_error_None in E2. lia. }
  exists from, to. repeat split; assumption.
Qed.

(** X3. At most one animation frame is queued at any time, and it is the
    one whose handle is in [animRequest]; while the engine is playing
    exactly one is queued. *)
Theorem single_pending_frame (json : list RawPoint) (st : State) :
  reachable host json st ->
  (rafPending st = [] \/
   exists h, rafPending st = [h] /\ animRequest st = Some h) /\
  (playing st = true -> List.length (rafPending st) = 1%nat).
Proof.
  intros Hreach.
  destruct (reachable_well_formed json st Hreach) as (_ & Hplay & Hidle).
  destruct (playing st).
  - destruct (Hplay eq_refl) as (_ & _ & _ & h & H1 & H2).
    split; [right; eauto | intros _; rewrite H1; reflexivity].
  - split; [|discriminate].
    destruct (Hidle eq_refl) as [H | (h & H1 & H2 & _)]; eauto.
Qed.

(** X4. Once the route is loaded no event handler ends in an exception:
    clicks, speed changes, resets and frame callbacks all return
    normally. *)
Theorem handlers_return_normally
    (json : list RawPoint) (st : State) (ev : Event) :
  reachable host json st ->
  exists st', dispatch host ev st = Normal st'.
Proof.
  intros Hreach.
  destruct (well_formed_dispatch ev st (reachable_well_formed json st Hreach))
    as (st' & E & _).
  exists st'. exact E.
Qed.

(** ** When a tick ends a segment *)

Lemma elapsed_reaches (e d : Q) :
  (0 < d)%Q -> (Qle_bool 1 (e / d) = true <-> (d <= e)%Q).
Proof.
  intros Hd. rewrite Qle_bool_iff.
  assert (Hnz : ~ (d == 0)%Q) by (intros H; rewrite H in Hd; discriminate).
  split; intros H.
  - apply (Qmult_le_r _ _ d Hd) in H.
    rewrite Qmult_1_l in H. unfold Qdiv in H.
    rewrite <- Qmult_assoc, (Qmult_comm (/ d)), Qmult_inv_r, Qmult_1_r in H;
      assumption.
  - apply Qle_shift_div_l; [exact Hd|]. rewrite Qmult_1_l. exact H.
Qed.

Lemma anchored_started (now s0 : Q) (st : State) :
  segmentStartTime st = Some s0 -> ~ (s0 == 0)%Q -> anchored now st = st.
Proof.
  intros Hs Hnz. unfold anchored. rewrite Hs. cbn [falsy].
  destruct (Qeq_bool s0 0) eqn:E; [|reflexivity].
  apply Qeq_bool_iff in E. contradiction.
Qed.

Lemma plus_le_minus (s0 d now : Q) :
  (s0 + d <= now)%Q <-> (d <= now - s0)%Q.
Proof. split; intros H; lra. Qed.

(** X5. A tick whose timestamp is at least the segment's start plus its
    duration ends the segment: the marker is put at the interpolation of
    the endpoints at fraction 1 and the index moves on by one. If a further
    segment exists it is opened with the clock reading of that moment and
    one frame is requested; otherwise playback stops and no frame is
    requested. *)
Theorem animate_completes_segment
    (now pnow s0 : Q) (st : State) (from to : Waypoint) :
  playing st = true ->
  segmentFrom st = Some from ->
  segmentTo st = Some to ->
  segmentStartTime st = Some s0 ->
  ~ (s0 == 0)%Q ->
  (0 < segmentDuration st)%Q ->
  (s0 + segmentDuration st <= now)%Q ->
  exists st',
    animate host now pnow st = Normal st' /\
    bikeMarker st' =
      (lerp (lat from) (lat to) 1, lerp (lng from) (lng to) 1) /\
    index st' = (index st + 1)%nat /\
    ((index st + 2 < List.length (route st))%nat ->
     playing st' = true /\
     segmentFrom st' = nth_error (route st) (index st + 1) /\
     segmentTo st' = nth_error (route st) (index st + 1 + 1) /\
     segmentStartTime st' = Some pnow /\
     rafPending st' = rafPending st ++ [S (rafLast st)]) /\
    ((List.length (route st) <= index st + 2)%nat ->
     playing st' = false /\
     playPauseBtn st' = "Play"%string /\
     rafPending st' = rafPending st).
Proof.
  intros Hp Hf Ht Hs Hnz Hd Hnow.
  assert (Et : tick_t now (anchored now st) = 1%Q).
  { rewrite (anchored_started now s0 st Hs Hnz).
    unfold tick_t, Math_min. rewrite Hs. cbn [number_of].
    apply plus_le_minus, (elapsed_reaches _ _ Hd) in Hnow.
    rewrite Hnow. reflexivity. }
  destruct (animate_emits host now pnow st from to Hp Hf Ht)
    as (st' & E & Hm & _).
  destruct (animate_step now pnow st from to Hp Hf Ht)
    as (st2 & E2 & _ & Hcases).
  rewrite E in E2. injection E2 as <-.
  rewrite Et in Hm, Hcases.
  exists st'. split; [exact E|]. split; [exact Hm|].
  destruct Hcases
    as [(K & _) | [(_ & Klt & Ki & Kp & Kf & Kt & Ks & Kq & _)
                  | (_ & Kle & Ki & Kp & Kb & Kq)]];
    [discriminate| |].
  - split; [exact Ki|]. split; [intros _; repeat split; assumption|].
    intros Hle. lia.
  - split; [exact Ki|]. split; [intros Hlt; lia|].
    intros _. repeat split; assumption.
Qed.

(** X6. A tick whose elapsed time [now - start] falls short of the
    segment's duration by more than rounding can make up, that is, is at
    most [(1 - 2^-50)] times the duration, stays in the segment: the marker
    is put at the fraction [(now - start) / duration] of the way, the index
    and the open segment are kept, the engine keeps playing and one frame
    is requested. *)
Theorem animate_within_segment
    (now pnow s0 : Q) (st : State) (from to : Waypoint) :
  playing st = true ->
  segmentFrom st = Some from ->
  segmentTo st = Some to ->
  segmentStartTime st = Some s0 ->
  ~ (s0 == 0)%Q ->
  (0 < segmentDuration st)%Q ->
  (now - s0 <= (1 - rounding_margin) * segmentDuration st)%Q ->
  let t := ((now - s0) / segmentDuration st)%Q in
  exists st',
    animate host now pnow st = Normal st' /\
    bikeMarker st' =
      (lerp (lat from) (lat to) t, lerp (lng from) (lng to) t) /\
    index st' = index st /\
    playing st' = true /\
    segmentFrom st' = Some from /\ segmentTo st' = Some to /\
    rafPending st' = rafPending st ++ [S (rafLast st)] /\
    animRequest st' = Some (S (rafLast st)).
Proof.
  intros Hp Hf Ht Hs Hnz Hd Hmargin t.
  assert (Hnow : (now < s0 + segmentDuration st)%Q).
  { assert (Hm : (0 < rounding_margin)%Q) by reflexivity.
    assert (Hlt : ((1 - rounding_margin) * segmentDuration st
                   < segmentDuration st)%Q) by nra.
    lra. }
  assert (Hq : Qle_bool 1 t = false).
  { destruct (Qle_bool 1 t) eqn:E; [|reflexivity].
    apply (elapsed_reaches _ _ Hd), plus_le_minus in E. lra. }
  assert (Et : tick_t now (anchored now st) = t).
  { rewrite (anchored_started now s0 st Hs Hnz).
    unfold tick_t, Math_min. rewrite Hs. cbn [number_of].
    fold t. rewrite Hq. reflexivity. }
  destruct (animate_emits host now pnow st from to Hp Hf Ht)
    as (st' & E & Hm & _).
  destruct (animate_step now pnow st from to Hp Hf Ht)
    as (st2 & E2 & _ & Hcases).
  rewrite E in E2. injection E2 as <-.
  rewrite Et in Hm, Hcases.
  exists st'. split; [exact E|]. split; [exact Hm|].
  destruct Hcases
    as [(_ & Ki & Kp & Kf & Kt & Kq & Ka) | [(K & _) | (K & _)]];
    [|congruence|congruence].
  repeat split; assumption.
Qed.

(** ** Pause and play *)

(** X7. A click while playing pauses: the engine stops playing, the queued
    frame is cancelled so that the queue is empty, and the index, the open
    segment, the marker, the trail and the text fields stay as they are; a
    frame callback delivered afterwards changes nothing. *)
Theorem pause_freezes
    (json : list RawPoint) (st : State) (now0 now1 : Q) :
  reachable host json st ->
  playing st = true ->
  exists st',
    playPauseBtn_click host now0 now1 st = Normal st' /\
    playing st' = false /\
    playPauseBtn st' = "Play"%string /\
    rafPending st' = [] /\
    index st' = index st /\
    segmentFrom st' = segmentFrom st /\ segmentTo st' = segmentTo st /\
    display st' = display st /\
    (forall h now pnow, run_frame host h now pnow st' = Normal st').
Proof.
  intros Hreach Hp.
  pose proof (reachable_well_formed json st Hreach) as W.
  destruct (well_formed_route st W) as (p0 & rest & Hr).
  assert (Hn : (List.length (route st) =? 0)%nat = false)
    by (rewrite Hr; reflexivity).
  pose proof (cancel_requested st W) as Hc.
  unfold playPauseBtn_click. rewrite Hn, Hp. cbn [negb].
  cbn [animRequest set_playPauseBtn set_playing].
  match goal with |- exists st', Normal ?x = _ /\ _ => set (s := x) end.
  assert (Hq : rafPending s = []).
  { subst s. destruct (animRequest st) as [k|]; cbn in Hc |- *; exact Hc. }
  exists s. split; [reflexivity|].
  split; [subst s; destruct (animRequest st); reflexivity|].
  split; [subst s; destruct (animRequest st); reflexivity|].
  split; [exact Hq|].
  split; [subst s; destruct (animRequest st); reflexivity|].
  split; [subst s; destruct (animRequest st); reflexivity|].
  split; [subst s; destruct (animRequest st); reflexivity|].
  split; [subst s; destruct (animRequest st); reflexivity|].
  intros h now pnow. unfold run_frame. rewrite Hq. reflexivity.
Qed.

(** X8. A click while stopped before the last waypoint starts playback at
    the index where it stands: the segment from that waypoint to the next
    is opened anew, timed from the clock reading of the click, and exactly
    one frame is queued; the marker, the trail and the text fields are not
    touched by the click. *)
Theorem play_reopens_current_segment
    (json : list RawPoint) (st : State) (now0 now1 : Q) :
  reachable host json st ->
  playing st = false ->
  (index st + 1 < List.length (route st))%nat ->
  exists st' from to,
    playPauseBtn_click host now0 now1 st = Normal st' /\
    playing st' = true /\
    index st' = index st /\
    nth_error (route st) (index st) = Some from /\
    nth_error (route st) (index st + 1) = Some to /\
    segmentFrom st' = Some from /\ segmentTo st' = Some to /\
    segmentStartTime st' = Some now1 /\
    rafPending st' = [S (rafLast st)] /\
    display st' = display st.
Proof.
  intros Hreach Hp Hlt.
  pose proof (reachable_well_formed json st Hreach) as W.
  destruct (well_formed_route st W) as (p0 & rest & Hr).
  assert (Hn : (List.length (route st) =? 0)%nat = false)
    by (rewrite Hr; reflexivity).
  assert (G : (Z.of_nat (index st) >=? Z.of_nat (List.length (route st)) - 1)
              = false) by (rewrite Z.geb_leb; apply Z.leb_gt; lia).
  assert (Hq : rafPending st = []).
  { destruct W as (_ & _ & Hidle).
    destruct (Hidle Hp) as [H | (h & _ & _ & Hle)]; [exact H | lia]. }
  unfold playPauseBtn_click. rewrite Hn, Hp, G. cbn [negb bind].
  destruct (well_formed_start now0 now1 st W Hp Hq)
    as (st' & E & W' & Hi & Hr' & _ & Hq' & Hd & Hplay & _).
  destruct (Hplay Hlt) as (Hp' & Hs').
  destruct W' as (_ & Hseg & _).
  destruct (Hseg Hp') as (_ & Hf & Ht & _).
  rewrite Hi, Hr' in Hf, Ht.
  destruct (nth_error (route st) (index st)) as [from|] eqn:E1.
  2:{ apply nth_error_None in E1. lia. }
  destruct (nth_error (route st) (index st + 1)) as [to|] eqn:E2.
  2:{ apply nth_error_None in E2. lia. }
  exists st', from, to. repeat split; assumption.
Qed.

(** X9. A click while stopped on the last waypoint of a route with at
    least two waypoints starts over: the index returns to 0, the trail is
    emptied, the marker is put on the first waypoint, the first segment is
    opened and the engine plays. *)
Theorem play_after_finish_restarts
    (json : list RawPoint) (st : State) (now0 now1 : Q)
    (p0 p1 : Waypoint) (rest : list Waypoint) :
  reachable host json st ->
  playing st = false ->
  route st = p0 :: p1 :: rest ->
  (List.length (route st) <= index st + 1)%nat ->
  exists st',
    playPauseBtn_click host now0 now1 st = Normal st' /\
    playing st' = true /\
    index st' = 0%nat /\
    livePolyline st' = [] /\
    bikeMarker st' = position p0 /\
    segmentFrom st' = Some p0 /\ segmentTo st' = Some p1 /\
    segmentStartTime st' = Some now1 /\
    elapsedEl st' = "00:00:00"%string /\
    progressEl st' = progress_text 0 st.
Proof.
  intros Hreach Hp Hr Hle.
  pose proof (reachable_well_formed json st Hreach) as W.
  assert (Hn : (List.length (route st) =? 0)%nat = false)
    by (rewrite Hr; reflexivity).
  assert (G : (Z.of_nat (index st) >=? Z.of_nat (List.length (route st)) - 1)
              = true) by (rewrite Z.geb_leb; apply Z.leb_le; lia).
  unfold playPauseBtn_click. rewrite Hn, Hp, G. cbn [negb].
  destruct (well_formed_reset st W) as (s1 & E1 & W1 & Hi1 & Hp1 & Hq1 & Hr1).
  destruct (resetSimulation_loaded host st p0 (p1 :: rest) Hr)
    as (s2 & E2 & _ & Hl & Hm & He & _ & Hg & _).
  rewrite E1 in E2. injection E2 as <-.
  rewrite E1. cbn [bind].
  destruct (well_formed_start now0 now1 s1 W1 Hp1 Hq1)
    as (st' & E & W' & Hi & Hr' & _ & _ & Hd & Hplay & _).
  assert (Hlt : (index s1 + 1 < List.length (route s1))%nat)
    by (rewrite Hi1, Hr1, Hr; cbn; lia).
  destruct (Hplay Hlt) as (Hp' & Hs').
  destruct W' as (_ & Hseg & _).
  destruct (Hseg Hp') as (_ & Hf & Ht & _).
  rewrite Hi, Hr', Hi1, Hr1, Hr in Hf, Ht. cbn in Hf, Ht.
  unfold display in Hd.
  injection Hd as D1 D2 _ _ _ D6 _ D8.
  exists st'. rewrite D1, D2, D6, D8, Hi, Hi1.
  repeat split; assumption.
Qed.

(** ** The elapsed time text *)

Lemma Qfloor_unique (x : Q) (z : Z) :
  (inject_Z z <= x)%Q -> (x < inject_Z (z + 1))%Q -> Qfloor x = z.
Proof.
  intros Hle Hlt.
  pose proof (Qfloor_le x) as F1. pose proof (Qlt_floor x) as F2.
  assert (A : (inject_Z z < inject_Z (Qfloor x + 1))%Q)
    by (eapply Qle_lt_trans; eassumption).
  assert (B : (inject_Z (Qfloor x) < inject_Z (z + 1))%Q)
    by (eapply Qle_lt_trans; eassumption).
  rewrite <- Zlt_Qlt in A, B. lia.
Qed.

(** Whole multiples of a second: the floor of [ms / (1000 c)] is the
    floor of [ms / 1000] divided by [c]. *)
Lemma Qfloor_nested (ms : Q) (c : Z) :
  0 < c ->
  Qfloor (ms / (1000 * inject_Z c)) = Qfloor (ms / 1000) / c.
Proof.
  intros Hc.
  set (y := (ms / 1000)%Q). set (n := Qfloor y).
  assert (Hc' : (0 < inject_Z c)%Q)
    by (change 0%Q with (inject_Z 0); rewrite <- Zlt_Qlt; exact Hc).
  assert (Hnz : ~ (inject_Z c == 0)%Q)
    by (intros H; rewrite H in Hc'; discriminate).
  assert (E : (ms / (1000 * inject_Z c) == y / inject_Z c)%Q)
    by (subst y; field; exact Hnz).
  rewrite (Qfloor_comp _ _ E).
  pose proof (Qfloor_le y) as F1. pose proof (Qlt_floor y) as F2.
  fold n in F1, F2.
  pose proof (Z.mul_div_le n c Hc) as D1.
  pose proof (Z.mod_pos_bound n c Hc) as D2.
  pose proof (Z.div_mod n c ltac:(lia)) as D3.
  apply Qfloor_unique.
  - apply Qle_shift_div_l; [exact Hc'|].
    rewrite <- inject_Z_mult.
    eapply Qle_trans; [|exact F1]. rewrite <- Zle_Qle. lia.
  - apply Qlt_shift_div_r; [exact Hc'|].
    rewrite <- inject_Z_mult.
    eapply Qlt_le_trans; [exact F2|]. rewrite <- Zle_Qle. nia.
Qed.

(** X10. For a duration that is not negative, [formatTime] shows the whole
    seconds of the duration split into hours, minutes below 60 and seconds
    below 60, each field written by [padStart(2, '0')]. *)
Theorem formatTime_splits_seconds (ms : Q) :
  (0 <= ms)%Q ->
  exists h m s : Z,
    formatTime ms =
      (padStart2 (String_of_Z h) ++ ":" ++ padStart2 (String_of_Z m) ++ ":"
         ++ padStart2 (String_of_Z s))%string /\
    0 <= h /\ 0 <= m < 60 /\ 0 <= s < 60 /\
    h * 3600 + m * 60 + s = Qfloor (ms / 1000).
Proof.
  intros Hms.
  set (n := Qfloor (ms / 1000)).
  assert (Hn : 0 <= n).
  { change 0 with (Qfloor 0). apply Qfloor_resp_le.
    apply Qle_shift_div_l; [reflexivity | lra]. }
  assert (E60 : Math_floor (ms / 60000) = n / 60)
    by (apply (Qfloor_nested ms 60); lia).
  assert (E3600 : Math_floor (ms / 3600000) = n / 3600)
    by (apply (Qfloor_nested ms 3600); lia).
  exists (n / 3600), ((n / 60) mod 60), (n mod 60).
  split.
  - unfold formatTime. rewrite E60, E3600. fold n.
    unfold Math_floor. fold n.
    assert (Hn60 : 0 <= n / 60) by (apply Z.div_pos; [exact Hn | lia]).
    rewrite (Z.rem_mod_nonneg n 60), (Z.rem_mod_nonneg (n / 60) 60) by lia.
    reflexivity.
  - pose proof (Z.mod_pos_bound n 60 ltac:(lia)).
    pose proof (Z.mod_pos_bound (n / 60) 60 ltac:(lia)).
    pose proof (Z.div_mod n 60 ltac:(lia)).
    pose proof (Z.div_mod (n / 60) 60 ltac:(lia)).
    assert (n / 60 / 60 = n / 3600)
      by (rewrite Z.div_div; [reflexivity|lia|lia]).
    assert (0 <= n / 3600) by (apply Z.div_pos; [exact Hn | lia]).
    repeat split; lia.
Qed.

Lemma string_length_append (a b : string) :
  String.length (a ++ b) = (String.length a + String.length b)%nat.
Proof.
  induction a as [|c a IH]; cbn; [reflexivity | rewrite IH; reflexivity].
Qed.

Lemma padStart2_width (z : Z) :
  0 <= z < 100 -> String.length (padStart2 (String_of_Z z)) = 2%nat.
Proof.
  intros Hz.
  assert (C : forallb
                (fun k => (String.length
                             (padStart2 (String_of_Z (Z.of_nat k))) =? 2)%nat)
                (seq 0 100) = true) by (vm_compute; reflexivity).
  rewrite forallb_forall in C.
  specialize (C (Z.to_nat z)).
  rewrite Z2Nat.id in C by lia.
  apply Nat.eqb_eq, C, in_seq. lia.
Qed.

(** X11. For a duration from 0 up to, but not including, 100 hours the
    text of [formatTime] has exactly eight characters. *)
Theorem formatTime_width (ms : Q) :
  (0 <= ms)%Q -> (ms < 360000000)%Q ->
  String.length (formatTime ms) = 8%nat.
Proof.
  intros Hms Hlt.
  destruct (formatTime_splits_seconds ms Hms)
    as (h & m & s & E & Hh & Hm & Hs & Hsum).
  assert (Hn : Qfloor (ms / 1000) < 360000).
  { assert (B : (ms / 1000 < inject_Z 360000)%Q)
      by (apply Qlt_shift_div_r; [reflexivity | exact Hlt]).
    pose proof (Qfloor_le (ms / 1000)) as F.
    assert (A : (inject_Z (Qfloor (ms / 1000)) < inject_Z 360000)%Q)
      by (eapply Qle_lt_trans; eassumption).
    rewrite <- Zlt_Qlt in A. exact A. }
  rewrite E, !string_length_append.
  rewrite !padStart2_width by lia. reflexivity.
Qed.

(** X12. For a negative duration above -1000, as when a frame is stamped
    just before the session start, every field of [formatTime] is -1. *)
Theorem formatTime_just_negative (ms : Q) :
  (- (1000) <= ms)%Q -> (ms < 0)%Q ->
  formatTime ms = "-1:-1:-1"%string.
Proof.
  intros Hlo Hhi.
  assert (F : forall c : Q, (1000 <= c)%Q -> Math_floor (ms / c) = -1).
  { intros c Hc. apply Qfloor_unique.
    - apply Qle_shift_div_l; [lra|].
      change (inject_Z (-1)) with (- (1))%Q. nra.
    - apply Qlt_shift_div_r; [lra|].
      change (inject_Z (-1 + 1)) with 0%Q. lra. }
  unfold formatTime.
  rewrite (F 1000%Q), (F 60000%Q), (F 3600000%Q) by (discriminate).
  reflexivity.
Qed.

(** ** Loading the route *)

(** X13. Loading a route file with at least one record succeeds: the route
    holds one waypoint per record, in order and with the record's
    coordinates and timestamp; the grey line is drawn through all of them;
    the index is 0, the trail is empty, the marker is on the first waypoint
    and the text fields show the stationary state with progress 1 / n. *)
Theorem loadRoute_success (p : RawPoint) (rest : list RawPoint) (st : State) :
  exists st',
    loadRoute host true (p :: rest) st = Normal st' /\
    List.length (route st') = List.length (p :: rest) /\
    (forall i q,
        nth_error (p :: rest) i = Some q ->
        nth_error (route st') i
        = Some (mkWaypoint (latitude q) (longitude q) (raw_timestamp q))) /\
    fullPolyline st' = map (fun q => (latitude q, longitude q)) (p :: rest) /\
    index st' = 0%nat /\
    livePolyline st' = [] /\
    bikeMarker st' = (latitude p, longitude p) /\
    elapsedEl st' = "00:00:00"%string /\
    speedEl st' = em_dash /\
    progressEl st' =
      ("1 / " ++ String_of_Z (Z.of_nat (List.length (p :: rest))))%string /\
    playing st' = playing st.
Proof.
  unfold loadRoute. cbn [negb].
  cbn [route set_route map List.length Nat.eqb].
  cbn [route set_route set_fullPolyline set_index set_livePolyline nth_error].
  unfold updateInfo.
  cbn [route set_route set_fullPolyline set_index set_livePolyline
       set_bikeMarker nth_error].
  eexists; split; [reflexivity|].
  cbn [route fullPolyline index livePolyline bikeMarker elapsedEl speedEl
       progressEl playing set_route set_fullPolyline set_index
       set_livePolyline set_bikeMarker set_latEl set_lngEl set_timestampEl
       set_elapsedEl set_speedEl set_progressEl].
  split; [cbn; rewrite length_map; reflexivity|].
  split.
  { intros i q Hq.
    change (waypoint_of_raw p :: map waypoint_of_raw rest)
      with (map waypoint_of_raw (p :: rest)).
    rewrite nth_error_map, Hq. cbn. unfold waypoint_of_raw, toDate.
    destruct (raw_timestamp q); reflexivity. }
  split.
  { cbn [map lat lng waypoint_of_raw]. f_equal. rewrite map_map. reflexivity. }
  unfold progress_text.
  cbn [route set_route set_fullPolyline set_index set_livePolyline
       set_bikeMarker set_latEl set_lngEl set_timestampEl set_elapsedEl
       set_speedEl].
  repeat split; try reflexivity.
  cbn [List.length]. rewrite length_map. reflexivity.
Qed.

(** X14. Loading fails with an exception when the response is not ok, which
    leaves every variable as it was, and when the file holds no record,
    which leaves only the empty route behind. After either failure at
    start-up the route is empty and a click on play does nothing. *)
Theorem loadRoute_failure (ok : bool) (json : list RawPoint) :
  ok = false \/ json = [] ->
  (forall st,
      ok = false ->
      loadRoute host ok json st = Throw "Unable to load route file" st) /\
  (forall st,
      ok = true ->
      loadRoute host ok json st = Throw "Route empty" (set_route [] st)) /\
  route (state_of (start_up host ok json initialState)) = [] /\
  (forall now0 now1,
      playPauseBtn_click host now0 now1
        (state_of (start_up host ok json initialState))
      = Normal (state_of (start_up host ok json initialState))).
Proof.
  intros H.
  assert (A : forall st, ok = false ->
            loadRoute host ok json st = Throw "Unable to load route file" st)
    by (intros st ->; reflexivity).
  assert (B : forall st, ok = true ->
            loadRoute host ok json st = Throw "Route empty" (set_route [] st)).
  { intros st ->. destruct H as [H | ->]; [discriminate | reflexivity]. }
  assert (C : route (state_of (start_up host ok json initialState)) = []).
  { unfold start_up. destruct ok.
    - rewrite (B _ eq_refl). reflexivity.
    - rewrite (A _ eq_refl). reflexivity. }
  repeat split; try assumption.
  intros now0 now1. unfold playPauseBtn_click. rewrite C. reflexivity.
Qed.

(** ** Changing the speed and resetting *)

Lemma startSegment_index (now : Q) (i : nat) (st : State) :
  index (state_of (startSegment now i st)) = index st.
Proof. unfold startSegment. frame_by_cases. Qed.

Lemma startSegment_playing (now : Q) (i : nat) (st : State) :
  playing (state_of (startSegment now i st)) =
  if Z.of_nat i >=? Z.of_nat (List.length (route st)) - 1
  then false else playing st.
Proof. unfold startSegment. frame_by_cases. Qed.

(** X15. A change of the speed slider does not touch the segment that is
    open: the next tick shows the same marker, trail and text fields, and
    leaves the same index and playing flag, as it would have without the
    change. Segments opened later are timed with the new multiplier. *)
Theorem speed_change_spares_open_segment
    (value : string) (st : State) (now pnow : Q) :
  display
    (state_of (animate host now pnow
                 (state_of (speedRange_input host value st))))
  = display (state_of (animate host now pnow st)) /\
  index
    (state_of (animate host now pnow
                 (state_of (speedRange_input host value st))))
  = index (state_of (animate host now pnow st)) /\
  playing
    (state_of (animate host now pnow
                 (state_of (speedRange_input host value st))))
  = playing (state_of (animate host now pnow st)) /\
  (forall now' i w1 w2,
      nth_error (route st) i = Some w1 ->
      nth_error (route st) (i + 1) = Some w2 ->
      exists st2 dt,
        startSegment now' i (state_of (speedRange_input host value st))
          = Normal st2 /\
        0 < dt /\
        segmentDuration st2 = (inject_Z dt / parseFloat host value)%Q).
Proof.
  unfold speedRange_input. cbn [state_of speedMultiplier set_speedMultiplier].
  set (m := parseFloat host value). set (label := (_ ++ "×")%string).
  split; [|split; [|split]].
  - unfold animate, anchored, tick_t. speed_fields.
    destruct (playing st); [|reflexivity]. cbn [negb].
    destruct (falsy (segmentStartTime st)); speed_fields;
      destruct (segmentFrom st), (segmentTo st); try reflexivity;
      (repeat match goal with
              | |- context [if ?c then _ else _] => destruct c
              end);
      rewrite ?bind_frame by (intros; reflexivity);
      rewrite ?startSegment_display; reflexivity.
  - unfold animate, anchored, tick_t. speed_fields.
    destruct (playing st); [|reflexivity]. cbn [negb].
    destruct (falsy (segmentStartTime st)); speed_fields;
      destruct (segmentFrom st), (segmentTo st); try reflexivity;
      (repeat match goal with
              | |- context [if ?c then _ else _] => destruct c
              end);
      rewrite ?bind_frame by (intros; reflexivity);
      rewrite ?startSegment_index; reflexivity.
  - unfold animate, anchored, tick_t. speed_fields.
    destruct (playing st) eqn:Hp; [|cbn; rewrite Hp; reflexivity]. cbn [negb].
    destruct (falsy (segmentStartTime st)); speed_fields;
      destruct (segmentFrom st), (segmentTo st);
      try (cbn; rewrite Hp; reflexivity);
      (destruct (Qle_bool 1 _); [|reflexivity]);
      tick_fields;
      (destruct (Z.of_nat (index st + 1) <? _); [|reflexivity]);
      rewrite !bind_frame by (intros; reflexivity);
      rewrite !startSegment_playing; tick_fields; reflexivity.
  - intros now' i w1 w2 H1 H2.
    apply (startSegment_uses_multiplier now' i
             (set_speedValue label (set_speedMultiplier m st)) w1 w2);
      assumption.
Qed.

(** X16. With a route loaded, resetting twice is the same as resetting
    once: a second [resetSimulation] returns the state that the first one
    left. *)
Theorem resetSimulation_idempotent
    (st : State) (p0 : Waypoint) (rest : list Waypoint) :
  route st = p0 :: rest ->
  exists st',
    resetSimulation host st = Normal st' /\
    resetSimulation host st' = Normal st'.
Proof.
  intros Hr.
  destruct st as [r i pl m ar ss sd sf sto sst b sv la ln ts el sp pr
                  fp lp bm rp rl].
  cbn in Hr. subst r.
  unfold resetSimulation, updateInfo, progress_text.
  destruct ar as [h|]; state_fields;
    (eexists; split; [reflexivity|]);
    state_fields; state_records; rewrite ?remove_remove_eq; reflexivity.
Qed.

End Sessions.

(** * The further properties at concrete sessions *)

Lemma reachable_loaded2 :
  reachable Demo.host Demo.json2 (Demo.loaded Demo.json2).
Proof.
  apply (reach_load Demo.host Demo.json2 []). vm_compute. reflexivity.
Qed.

Lemma reachable_playing2 : reachable Demo.host Demo.json2 Demo.playing2.
Proof. apply reach_event, reachable_loaded2. Qed.

Lemma reachable_finished2 : reachable Demo.host Demo.json2 Demo.finished2.
Proof. apply reach_event, reachable_playing2. Qed.

Lemma reachable_paused2 : reachable Demo.host Demo.json2 Demo.paused2.
Proof.
  unfold Demo.paused2. cbn [run fold_left].
  apply reach_event, reach_event, reachable_playing2.
Qed.

Lemma reachable_resumed2 : reachable Demo.host Demo.json2 Demo.resumed2.
Proof. apply reach_event, reachable_paused2. Qed.

Lemma index_within_route_witness :
  reachable Demo.host Demo.json2 Demo.finished2 /\
  route Demo.finished2 = map waypoint_of_raw Demo.json2 /\
  (index Demo.finished2 < List.length (route Demo.finished2))%nat.
Proof.
  split; [exact reachable_finished2|].
  apply (index_within_route Demo.host Demo.json2 Demo.finished2
           reachable_finished2).
Defined.

Lemma playing_segment_is_current_witness :
  reachable Demo.host Demo.json2 Demo.playing2 /\
  playing Demo.playing2 = true /\
  exists from to,
    nth_error (route Demo.playing2) (index Demo.playing2) = Some from /\
    nth_error (route Demo.playing2) (index Demo.playing2 + 1) = Some to /\
    segmentFrom Demo.playing2 = Some from /\
    segmentTo Demo.playing2 = Some to.
Proof.
  split; [exact reachable_playing2|].
  split; [vm_compute; reflexivity|].
  apply (playing_segment_is_current Demo.host Demo.json2 Demo.playing2
           reachable_playing2).
  vm_compute; reflexivity.
Defined.

Lemma single_pending_frame_witness :
  reachable Demo.host Demo.json2 Demo.resumed2 /\
  (rafPending Demo.resumed2 = [] \/
   exists h,
     rafPending Demo.resumed2 = [h] /\ animRequest Demo.resumed2 = Some h) /\
  (playing Demo.resumed2 = true ->
   List.length (rafPending Demo.resumed2) = 1%nat).
Proof.
  split; [exact reachable_resumed2|].
  apply (single_pending_frame Demo.host Demo.json2 Demo.resumed2
           reachable_resumed2).
Defined.

Lemma handlers_return_normally_witness :
  reachable Demo.host Demo.json2 Demo.finished2 /\
  exists st', dispatch Demo.host (PlayPause 5000 5000) Demo.finished2
              = Normal st'.
Proof.
  split; [exact reachable_finished2|].
  apply (handlers_return_normally Demo.host Demo.json2 Demo.finished2
           (PlayPause 5000 5000) reachable_finished2).
Defined.

Lemma animate_completes_segment_witness :
  playing Demo.playing2 = true /\
  segmentFrom Demo.playing2 = Some Demo.start2 /\
  segmentTo Demo.playing2 = Some Demo.end2 /\
  segmentStartTime Demo.playing2 = Some 1000%Q /\
  ~ (1000 == 0)%Q /\
  (0 < segmentDuration Demo.playing2)%Q /\
  (1000 + segmentDuration Demo.playing2 <= 2000)%Q /\
  exists st',
    animate Demo.host 2000 2000 Demo.playing2 = Normal st' /\
    bikeMarker st' =
      (lerp (lat Demo.start2) (lat Demo.end2) 1,
       lerp (lng Demo.start2) (lng Demo.end2) 1) /\
    index st' = (index Demo.playing2 + 1)%nat /\
    ((index Demo.playing2 + 2 < List.length (route Demo.playing2))%nat ->
     playing st' = true /\
     segmentFrom st'
       = nth_error (route Demo.playing2) (index Demo.playing2 + 1) /\
     segmentTo st'
       = nth_error (route Demo.playing2) (index Demo.playing2 + 1 + 1) /\
     segmentStartTime st' = Some 2000%Q /\
     rafPending st'
       = rafPending Demo.playing2 ++ [S (rafLast Demo.playing2)]) /\
    ((List.length (route Demo.playing2) <= index Demo.playing2 + 2)%nat ->
     playing st' = false /\
     playPauseBtn st' = "Play"%string /\
     rafPending st' = rafPending Demo.playing2).
Proof.
  split; [vm_compute; reflexivity|].
  split; [vm_compute; reflexivity|].
  split; [vm_compute; reflexivity|].
  split; [vm_compute; reflexivity|].
  split; [vm_compute; discriminate|].
  split; [vm_compute; reflexivity|].
  split; [vm_compute; discriminate|].
  apply (animate_completes_segment Demo.host 2000 2000 1000 Demo.playing2
           Demo.start2 Demo.end2);
    try (vm_compute; reflexivity); vm_compute; discriminate.
Defined.

Lemma animate_within_segment_witness :
  playing Demo.playing2 = true /\
  segmentFrom Demo.playing2 = Some Demo.start2 /\
  segmentTo Demo.playing2 = Some Demo.end2 /\
  segmentStartTime Demo.playing2 = Some 1000%Q /\
  ~ (1000 == 0)%Q /\
  (0 < segmentDuration Demo.playing2)%Q /\
  (1500 - 1000 <= (1 - rounding_margin) * segmentDuration Demo.playing2)%Q /\
  let t := ((1500 - 1000) / segmentDuration Demo.playing2)%Q in
  exists st',
    animate Demo.host 1500 1500 Demo.playing2 = Normal st' /\
    bikeMarker st' =
      (lerp (lat Demo.start2) (lat Demo.end2) t,
       lerp (lng Demo.start2) (lng Demo.end2) t) /\
    index st' = index Demo.playing2 /\
    playing st' = true /\
    segmentFrom st' = Some Demo.start2 /\ segmentTo st' = Some Demo.end2 /\
    rafPending st' = rafPending Demo.playing2 ++ [S (rafLast Demo.playing2)] /\
    animRequest st' = Some (S (rafLast Demo.playing2)).
Proof.
  split; [vm_compute; reflexivity|].
  split; [vm_compute; reflexivity|].
  split; [vm_compute; reflexivity|].
  split; [vm_compute; reflexivity|].
  split; [vm_compute; discriminate|].
  split; [vm_compute; reflexivity|].
  split; [vm_compute; discriminate|].
  apply (animate_within_segment Demo.host 1500 1500 1000 Demo.playing2
           Demo.start2 Demo.end2);
    try (vm_compute; reflexivity); vm_compute; discriminate.
Defined.

Lemma pause_freezes_witness :
  reachable Demo.host Demo.json2 Demo.playing2 /\
  playing Demo.playing2 = true /\
  exists st',
    playPauseBtn_click Demo.host 1600 1600 Demo.playing2 = Normal st' /\
    playing st' = false /\
    playPauseBtn st' = "Play"%string /\
    rafPending st' = [] /\
    index st' = index Demo.playing2 /\
    segmentFrom st' = segmentFrom Demo.playing2 /\
    segmentTo st' = segmentTo Demo.playing2 /\
    display st' = display Demo.playing2 /\
    (forall h now pnow, run_frame Demo.host h now pnow st' = Normal st').
Proof.
  split; [exact reachable_playing2|].
  split; [vm_compute; reflexivity|].
  apply (pause_freezes Demo.host Demo.json2 Demo.playing2 1600 1600
           reachable_playing2).
  vm_compute; reflexivity.
Defined.

Lemma play_reopens_current_segment_witness :
  reachable Demo.host Demo.json2 Demo.paused2 /\
  playing Demo.paused2 = false /\
  (index Demo.paused2 + 1 < List.length (route Demo.paused2))%nat /\
  exists st' from to,
    playPauseBtn_click Demo.host 3000 3000 Demo.paused2 = Normal st' /\
    playing st' = true /\
    index st' = index Demo.paused2 /\
    nth_error (route Demo.paused2) (index Demo.paused2) = Some from /\
    nth_error (route Demo.paused2) (index Demo.paused2 + 1) = Some to /\
    segmentFrom st' = Some from /\ segmentTo st' = Some to /\
    segmentStartTime st' = Some 3000%Q /\
    rafPending st' = [S (rafLast Demo.paused2)] /\
    display st' = display Demo.paused2.
Proof.
  split; [exact reachable_paused2|].
  split; [vm_compute; reflexivity|].
  split; [vm_compute; lia|].
  apply (play_reopens_current_segment Demo.host Demo.json2 Demo.paused2
           3000 3000 reachable_paused2);
    [vm_compute; reflexivity | vm_compute; lia].
Defined.

Lemma play_after_finish_restarts_witness :
  reachable Demo.host Demo.json2 Demo.finished2 /\
  playing Demo.finished2 = false /\
  route Demo.finished2 = Demo.start2 :: Demo.end2 :: [] /\
  (List.length (route Demo.finished2) <= index Demo.finished2 + 1)%nat /\
  exists st',
    playPauseBtn_click Demo.host 5000 5000 Demo.finished2 = Normal st' /\
    playing st' = true /\
    index st' = 0%nat /\
    livePolyline st' = [] /\
    bikeMarker st' = position Demo.start2 /\
    segmentFrom st' = Some Demo.start2 /\ segmentTo st' = Some Demo.end2 /\
    segmentStartTime st' = Some 5000%Q /\
    elapsedEl st' = "00:00:00"%string /\
    progressEl st' = progress_text 0 Demo.finished2.
Proof.
  split; [exact reachable_finished2|].
  split; [vm_compute; reflexivity|].
  split; [vm_compute; reflexivity|].
  split; [vm_compute; lia|].
  apply (play_after_finish_restarts Demo.host Demo.json2 Demo.finished2
           5000 5000 Demo.start2 Demo.end2 [] reachable_finished2);
    [vm_compute; reflexivity | vm_compute; reflexivity | vm_compute; lia].
Defined.

Lemma formatTime_splits_seconds_witness :
  (0 <= 3723500)%Q /\
  exists h m s : Z,
    formatTime 3723500 =
      (padStart2 (String_of_Z h) ++ ":" ++ padStart2 (String_of_Z m) ++ ":"
         ++ padStart2 (String_of_Z s))%string /\
    0 <= h /\ 0 <= m < 60 /\ 0 <= s < 60 /\
    h * 3600 + m * 60 + s = Qfloor (3723500 / 1000).
Proof.
  split; [vm_compute; discriminate|].
  apply (formatTime_splits_seconds 3723500). vm_compute; discriminate.
Defined.

Lemma formatTime_width_witness :
  (0 <= 3723500)%Q /\ (3723500 < 360000000)%Q /\
  String.length (formatTime 3723500) = 8%nat.
Proof.
  split; [vm_compute; discriminate|].
  split; [vm_compute; reflexivity|].
  apply (formatTime_width 3723500);
    [vm_compute; discriminate | vm_compute; reflexivity].
Defined.

Lemma formatTime_just_negative_witness :
  (- (1000) <= - (500))%Q /\ (- (500) < 0)%Q /\
  formatTime (- (500)) = "-1:-1:-1"%string.
Proof.
  split; [vm_compute; discriminate|].
  split; [vm_compute; reflexivity|].
  apply (formatTime_just_negative (- (500))%Q);
    [vm_compute; discriminate | vm_compute; reflexivity].
Defined.

Lemma loadRoute_success_witness :
  nth_error Demo.json2 1 = Some (mkRawPoint 1 1 (Some 1000)) /\
  exists st',
    loadRoute Demo.host true Demo.json2 initialState = Normal st' /\
    List.length (route st') = 2%nat /\
    nth_error (route st') 1 = Some Demo.end2 /\
    fullPolyline st' = [(0, 0); (1, 1)]%Q /\
    index st' = 0%nat /\
    bikeMarker st' = (0, 0)%Q /\
    progressEl st' = "1 / 2"%string.
Proof.
  split; [reflexivity|].
  destruct (loadRoute_success Demo.host (mkRawPoint 0 0 (Some 0))
              [mkRawPoint 1 1 (Some 1000)] initialState)
    as (st' & E & Hlen & Hnth & Hfull & Hi & _ & Hm & _ & _ & Hpr & _).
  exists st'. split; [exact E|].
  split; [exact Hlen|].
  split; [apply (Hnth 1%nat (mkRawPoint 1 1 (Some 1000))); reflexivity|].
  split; [exact Hfull|]. split; [exact Hi|]. split; [exact Hm|]. exact Hpr.
Defined.

Lemma loadRoute_failure_witness :
  (false = false \/ Demo.json2 = []) /\
  (forall st,
      false = false ->
      loadRoute Demo.host false Demo.json2 st
      = Throw "Unable to load route file" st) /\
  (forall st,
      false = true ->
      loadRoute Demo.host false Demo.json2 st
      = Throw "Route empty" (set_route [] st)) /\
  route (state_of (start_up Demo.host false Demo.json2 initialState)) = [] /\
  (forall now0 now1,
      playPauseBtn_click Demo.host now0 now1
        (state_of (start_up Demo.host false Demo.json2 initialState))
      = Normal (state_of (start_up Demo.host false Demo.json2 initialState))).
Proof.
  split; [left; reflexivity|].
  apply (loadRoute_failure Demo.host false Demo.json2). left; reflexivity.
Defined.

Lemma speed_change_spares_open_segment_witness :
  nth_error (route Demo.playing2) 0 = Some Demo.start2 /\
  nth_error (route Demo.playing2) (0 + 1) = Some Demo.end2 /\
  display
    (state_of (animate Demo.host 1500 1500
                 (state_of (speedRange_input Demo.host "2" Demo.playing2))))
  = display (state_of (animate Demo.host 1500 1500 Demo.playing2)) /\
  exists st2 dt,
    startSegment 1600 0
      (state_of (speedRange_input Demo.host "2" Demo.playing2))
      = Normal st2 /\
    0 < dt /\
    segmentDuration st2 = (inject_Z dt / parseFloat Demo.host "2")%Q.
Proof.
  destruct (speed_change_spares_open_segment Demo.host "2" Demo.playing2
              1500 1500) as (Hd & _ & _ & Hnext).
  split; [vm_compute; reflexivity|].
  split; [vm_compute; reflexivity|].
  split; [exact Hd|].
  apply (Hnext 1600%Q 0%nat Demo.start2 Demo.end2); vm_compute; reflexivity.
Defined.

Lemma resetSimulation_idempotent_witness :
  route Demo.playing2 = Demo.start2 :: [Demo.end2] /\
  exists st',
    resetSimulation Demo.host Demo.playing2 = Normal st' /\
    resetSimulation Demo.host st' = Normal st'.
Proof.
  split; [vm_compute; reflexivity|].
  apply (resetSimulation_idempotent Demo.host Demo.playing2
           Demo.start2 [Demo.end2]).
  vm_compute; reflexivity.
Defined.
